(** * Image Occlusion extension for SVG-Edit: model and verification

    A shallow embedding of
    [svg-edit/editor/extensions/ext-image-occlusion.js]: the three canvas
    methods the extension installs ([storeOcrResults], [drawOcrRects],
    [drawOcrRectsInSelection]) and its private helper [finalizeCreation].

    Conventions of the embedding:
    - the code is modelled once, over a type of numbers with the two
      operations the code applies to them, [+] and [<] (class [Number]);
      the numbers of JavaScript are the instance [binary64] (IEEE-754
      doubles, sums rounded to nearest even); [exactZ] is the instance of
      integers added and compared exactly, which the doubles follow as long
      as no sum is rounded;
    - an argument that may be [undefined]/[null] is an [option];
    - the canvas object and the host editor it talks to are one explicit
      state ([Canvas]) threaded through a state-and-exception monad [M];
      what a call did before it threw stays done, as in JavaScript. *)

From stdpp Require Import base numbers list strings.
From Stdlib Require Import Floats.SpecFloat.

Local Open Scope Z_scope.

Module Occlusion.

(** ** Numbers *)

(** What the code does with numbers: it adds them and compares them. *)
Class Number : Type := mkNumber {
  num : Type;
  num_add : num -> num -> num;
  num_lt : num -> num -> bool
}.

(** [a > b] is [b < a]: JavaScript evaluates both operands left to right
    and then asks whether the right one is less than the left one. *)
Definition num_gt {N : Number} (a b : num) : bool := num_lt b a.

(** How a call ends. *)
Inductive outcome (A : Type) : Type :=
| Returned (a : A)
| Thrown (msg : string).
Arguments Returned {A} a.
Arguments Thrown {A} msg.

Section Model.

Context {N : Number}.

(** ** Data *)

(** A rectangle received from the OCR side: [{x, y, w, h}]. *)
Record OcrRect : Type := mkOcrRect {
  r_x : num;
  r_y : num;
  r_w : num;
  r_h : num
}.

(** The box dragged by the user: [{x, y, width, height}]. *)
Record SelectionBox : Type := mkSelectionBox {
  sel_x : num;
  sel_y : num;
  sel_width : num;
  sel_height : num
}.

(** The two paints [getColor] is asked for. *)
Inductive Paint : Type := fill | stroke.

(** The JSON handed to [addSvgElementFromJson], which is also all we record
    of the element it returns: [{element: ..., attr: {...}}]. *)
Record SvgElement : Type := mkSvgElement {
  element : string;
  attr_x : num;
  attr_y : num;
  attr_width : num;
  attr_height : num;
  attr_fill : string;
  attr_stroke : string;
  attr_stroke_width : num;
  attr_id : nat
}.

(** History commands. The extension builds only [InsertElementCommand]s. *)
Inductive Command : Type :=
| InsertElementCommand (elem : SvgElement).

Record BatchCommand : Type := mkBatchCommand {
  text : string;
  stack : list Command
}.

(** An event sent through [call(ev, arg)]. *)
Record Event : Type := mkEvent {
  ev_name : string;
  ev_arg : list SvgElement
}.

(** The canvas together with the part of the host editor the extension
    reads or writes. *)
Record Canvas : Type := mkCanvas {
  storedOcrRects : option (list OcrRect);
  cur_fill : string;
  cur_stroke : string;
  cur_stroke_width : num;
  obj_num : nat;
  document : list SvgElement;
  undoStack : list BatchCommand;
  events : list Event
}.

Definition set_storedOcrRects (v : option (list OcrRect)) (c : Canvas) : Canvas :=
  mkCanvas v (cur_fill c) (cur_stroke c) (cur_stroke_width c) (obj_num c)
           (document c) (undoStack c) (events c).

Definition set_obj_num (n : nat) (c : Canvas) : Canvas :=
  mkCanvas (storedOcrRects c) (cur_fill c) (cur_stroke c) (cur_stroke_width c) n
           (document c) (undoStack c) (events c).

Definition set_document (d : list SvgElement) (c : Canvas) : Canvas :=
  mkCanvas (storedOcrRects c) (cur_fill c) (cur_stroke c) (cur_stroke_width c)
           (obj_num c) d (undoStack c) (events c).

Definition set_undoStack (u : list BatchCommand) (c : Canvas) : Canvas :=
  mkCanvas (storedOcrRects c) (cur_fill c) (cur_stroke c) (cur_stroke_width c)
           (obj_num c) (document c) u (events c).

Definition set_events (e : list Event) (c : Canvas) : Canvas :=
  mkCanvas (storedOcrRects c) (cur_fill c) (cur_stroke c) (cur_stroke_width c)
           (obj_num c) (document c) (undoStack c) e.

(** ** The monad of canvas computations *)

Definition M (A : Type) : Type := Canvas -> outcome A * Canvas.

Definition ret {A} (a : A) : M A := fun c => (Returned a, c).

Definition bind {A B} (m : M A) (k : A -> M B) : M B :=
  fun c =>
    match m c with
    | (Returned a, c') => k a c'
    | (Thrown msg, c') => (Thrown msg, c')
    end.

Definition throw {A} (msg : string) : M A := fun c => (Thrown msg, c).

Definition gets {A} (f : Canvas -> A) : M A := fun c => (Returned (f c), c).

Definition modify (f : Canvas -> Canvas) : M unit := fun c => (Returned (), f c).

#[local] Instance M_ret : MRet M := @ret.
#[local] Instance M_bind : MBind M := fun A B k m => bind m k.

(** The state a computation leaves behind and what it hands back. *)
Definition final {A} (r : outcome A * Canvas) : Canvas := r.2.
Definition result {A} (r : outcome A * Canvas) : outcome A := r.1.

(** ** Host editor operations *)

(** Modelled from the spec: the host canvas' current-style getters
    ([getColor], [getStrokeWidth]), which read the ambient style and change
    nothing. *)
Definition getColor (p : Paint) : M string :=
  gets (fun c => match p with fill => cur_fill c | stroke => cur_stroke c end).

Definition getStrokeWidth : M num := gets cur_stroke_width.

(** The largest identifier carried by an element of a document. *)
Fixpoint maxId (d : list SvgElement) : nat :=
  match d with
  | [] => 0%nat
  | e :: rest => Nat.max (attr_id e) (maxId rest)
  end.

(** Modelled from the spec: the host canvas' ID allocator ([getNextId]),
    which hands out a freshly allocated identifier, unique in the document;
    here the first number past the allocator's counter and past every
    identifier already carried by an element of the document. *)
Definition getNextId : M nat :=
  fun c =>
    let n := S (Nat.max (obj_num c) (maxId (document c))) in
    (Returned n, set_obj_num n c).

(** Modelled from the spec: the host canvas' element creation
    ([addSvgElementFromJson]), which inserts the described element in the
    document tree and returns it. *)
Definition addSvgElementFromJson (data : SvgElement) : M SvgElement :=
  fun c => (Returned data, set_document (document c ++ [data]) c).

(** Modelled from the spec: the host history's batch command: constructed
    with a name and no sub-command ([new BatchCommand(name)]), extended by
    [addSubCommand] at the end of its sequence, asked by [isEmpty]. *)
Definition newBatchCommand (name : string) : BatchCommand :=
  mkBatchCommand name [].

Definition addSubCommand (b : BatchCommand) (cmd : Command) : BatchCommand :=
  mkBatchCommand (text b) (stack b ++ [cmd]).

Definition isEmpty (b : BatchCommand) : bool :=
  (length (stack b) =? 0)%nat.

(** Modelled from the spec: the host history's [addCommandToHistory], which
    pushes a completed command on the undo stack. *)
Definition addCommandToHistory (cmd : BatchCommand) : M unit :=
  modify (fun c => set_undoStack (undoStack c ++ [cmd]) c).

(** Modelled from the spec: the host's event emitter [call(ev, arg)]. *)
Definition call (ev : string) (arg : list SvgElement) : M unit :=
  modify (fun c => set_events (events c ++ [mkEvent ev arg]) c).

(** ** The extension *)

(** [name || dflt] on a string that may be absent: [undefined], [null] and
    the empty string are falsy. *)
Definition or_default (name : option string) (dflt : string) : string :=
  match name with
  | None => dflt
  | Some s => if String.eqb s "" then dflt else s
  end.

(** The loop [for (var i = new_elems.length - 1; i >= 0; i--)] of
    [finalizeCreation], entered with [n = i + 1]. Reading past the end of the
    array gives [undefined], on which [new InsertElementCommand] throws. *)
Fixpoint addSubCommands (new_elems : list SvgElement) (n : nat)
    (batchCmd : BatchCommand) : M BatchCommand :=
  match n with
  | O => mret batchCmd
  | S i =>
      match new_elems !! i with
      | Some elem =>
          addSubCommands new_elems i
            (addSubCommand batchCmd (InsertElementCommand elem))
      | None => throw "TypeError"
      end
  end.

Definition finalizeCreation (new_elems : option (list SvgElement))
    (name : option string) : M unit :=
  match new_elems with
  | None => mret ()
  | Some elems =>
      if (length elems =? 0)%nat then mret ()
      else
        let name := or_default name "Create Occlusion Masks" in
        batchCmd ← addSubCommands elems (length elems) (newBatchCommand name);
        if negb (isEmpty batchCmd) then
          addCommandToHistory batchCmd ;;
          call "changed" elems
        else mret ()
  end.

Definition storeOcrResults (rects : option (list OcrRect)) : M unit :=
  modify (set_storedOcrRects rects).

(** The body of the callback given to [forEach] in both drawing methods (the
    two are the same text): the attribute object is evaluated field by
    field, the element is created, then pushed on [new_elems]. *)
Definition drawRect (r : OcrRect) (new_elems : list SvgElement)
    : M (list SvgElement) :=
  f ← getColor fill;
  s ← getColor stroke;
  sw ← getStrokeWidth;
  id ← getNextId;
  newElement ← addSvgElementFromJson
    (mkSvgElement "rect" (r_x r) (r_y r) (r_w r) (r_h r) f s sw id);
  mret (new_elems ++ [newElement]).

(** [rects.forEach(function (r) { ... new_elems.push(newElement); })] *)
Fixpoint forEach_drawRect (rects : list OcrRect) (new_elems : list SvgElement)
    : M (list SvgElement) :=
  match rects with
  | [] => mret new_elems
  | r :: rest =>
      new_elems' ← drawRect r new_elems;
      forEach_drawRect rest new_elems'
  end.

Definition drawOcrRects (rects : option (list OcrRect)) : M unit :=
  match rects with
  | None => mret ()
  | Some rects =>
      if (length rects =? 0)%nat then mret ()
      else
        new_elems ← forEach_drawRect rects [];
        finalizeCreation (Some new_elems) (Some "Create All Occlusion Masks")
  end.

(** The test of lines 122-123, with the corners computed as the code does:
    the far corners are sums of numbers, and the comparisons are those of
    numbers. *)
Definition intersects (selectionBox : SelectionBox) (ocrRect : OcrRect) : bool :=
  let selX1 := sel_x selectionBox in
  let selY1 := sel_y selectionBox in
  let selX2 := num_add (sel_x selectionBox) (sel_width selectionBox) in
  let selY2 := num_add (sel_y selectionBox) (sel_height selectionBox) in
  let ocrX1 := r_x ocrRect in
  let ocrY1 := r_y ocrRect in
  let ocrX2 := num_add (r_x ocrRect) (r_w ocrRect) in
  let ocrY2 := num_add (r_y ocrRect) (r_h ocrRect) in
  num_lt selX1 ocrX2 && num_gt selX2 ocrX1 &&
  num_lt selY1 ocrY2 && num_gt selY2 ocrY1.

(** The first [forEach] of [drawOcrRectsInSelection]: push the rectangles
    that pass the test, in the order met. *)
Definition rectsToDraw (selectionBox : SelectionBox) (ocrRects : list OcrRect)
    : list OcrRect :=
  fold_left
    (fun acc ocrRect =>
       if intersects selectionBox ocrRect then acc ++ [ocrRect] else acc)
    ocrRects [].

Definition drawOcrRectsInSelection (selectionBox : option SelectionBox) : M unit :=
  ocrRects ← gets storedOcrRects;
  match ocrRects with
  | None => mret ()
  | Some ocrRects =>
      if (length ocrRects =? 0)%nat then mret ()
      else
        match selectionBox with
        | None => throw "TypeError"
        | Some selectionBox =>
            let todo := rectsToDraw selectionBox ocrRects in
            if (0 <? length todo)%nat then
              new_elems ← forEach_drawRect todo [];
              finalizeCreation (Some new_elems)
                (Some "Create Occlusion Masks in Selection")
            else mret ()
        end
  end.

(** The canvas as the extension leaves it when the editor is ready:
    [svgCanvas.storedOcrRects = []]. *)
Definition ready (c : Canvas) : Canvas := set_storedOcrRects (Some []) c.

(** ** Closed forms of the operations *)

(** What a successful [finalizeCreation] pushes on the history. *)
Definition batchOf (name : option string) (elems : list SvgElement) : BatchCommand :=
  mkBatchCommand (or_default name "Create Occlusion Masks")
                 (reverse (InsertElementCommand <$> elems)).

(** The canvas after a successful [finalizeCreation]. *)
Definition finalized (name : option string) (elems : list SvgElement)
    (c : Canvas) : Canvas :=
  set_events (events c ++ [mkEvent "changed" elems])
    (set_undoStack (undoStack c ++ [batchOf name elems]) c).

(** The element [drawRect] builds for [r] when the allocator returns [id]. *)
Definition rectElement (f s : string) (sw : num) (id : nat) (r : OcrRect) : SvgElement :=
  mkSvgElement "rect" (r_x r) (r_y r) (r_w r) (r_h r) f s sw id.

(** The elements one [forEach] builds, the allocator starting after [n]. *)
Fixpoint rectElements (f s : string) (sw : num) (n : nat) (rects : list OcrRect)
    : list SvgElement :=
  match rects with
  | [] => []
  | r :: rest => rectElement f s sw (S n) r :: rectElements f s sw (S n) rest
  end.

(** The number the allocator starts from on a canvas: identifiers handed
    out next are the numbers after it. *)
Definition idBase (c : Canvas) : nat :=
  Nat.max (obj_num c) (maxId (document c)).

Definition drawnElements (c : Canvas) (rects : list OcrRect) : list SvgElement :=
  rectElements (cur_fill c) (cur_stroke c) (cur_stroke_width c) (idBase c) rects.

(** The canvas after the [forEach] over [rects]. *)
Definition drawn (rects : list OcrRect) (c : Canvas) : Canvas :=
  set_document (document c ++ drawnElements c rects)
    (set_obj_num
       (match rects with
        | [] => obj_num c
        | _ :: _ => idBase c + length rects
        end)%nat c).

(** The rectangle an element was made from. *)
Definition geometry (e : SvgElement) : OcrRect :=
  mkOcrRect (attr_x e) (attr_y e) (attr_width e) (attr_height e).

(** ** Notions the statements use *)

(** The stored sequence, an absent one read as empty. *)
Definition storedList (c : Canvas) : list OcrRect :=
  default [] (storedOcrRects c).

(** The same box in the other role. *)
Definition asSelectionBox (r : OcrRect) : SelectionBox :=
  mkSelectionBox (r_x r) (r_y r) (r_w r) (r_h r).

Definition asOcrRect (s : SelectionBox) : OcrRect :=
  mkOcrRect (sel_x s) (sel_y s) (sel_width s) (sel_height s).

(** Every batch on the undo stack has a sub-command. *)
Definition history_ok (c : Canvas) : Prop :=
  Forall (fun b => isEmpty b = false) (undoStack c).

(** The canvas a drawing method leaves when it has [rects] to draw and
    names its action [name]: untouched when there is nothing to draw. *)
Definition after_draw (name : string) (rects : list OcrRect) (c : Canvas) : Canvas :=
  match rects with
  | [] => c
  | _ :: _ => finalized (Some name) (drawnElements c rects) (drawn rects c)
  end.

(** What [drawOcrRectsInSelection] has to draw. *)
Definition todoOf (selectionBox : option SelectionBox) (c : Canvas) : list OcrRect :=
  match selectionBox with
  | Some sel => rectsToDraw sel (storedList c)
  | None => []
  end.

(** A history entry and the event emitted with it: the entry wraps, last
    first, the elements the "changed" event carries. *)
Definition paired (b : BatchCommand) (e : Event) : Prop :=
  ev_name e = "changed" /\ stack b = reverse (InsertElementCommand <$> ev_arg e).

Definition history_synced (c : Canvas) : Prop :=
  Forall2 paired (undoStack c) (events c).

(** The identifiers in the document are pairwise distinct and were all
    handed out by the allocator. *)
Definition ids_unique (c : Canvas) : Prop :=
  NoDup (attr_id <$> document c) /\
  Forall (fun e => (attr_id e <= obj_num c)%nat) (document c).

(** A created element is a [rect] painted with the given style. *)
Definition styled (f s : string) (sw : num) (e : SvgElement) : Prop :=
  element e = "rect" /\ attr_fill e = f /\ attr_stroke e = s /\
  attr_stroke_width e = sw.

(** Nothing is ever taken away from the canvas. *)
Definition grows (c c' : Canvas) : Prop :=
  document c `prefix_of` document c' /\
  undoStack c `prefix_of` undoStack c' /\
  events c `prefix_of` events c' /\
  (obj_num c <= obj_num c')%nat.

(** The ambient style is the same in both canvases. *)
Definition same_style (c c' : Canvas) : Prop :=
  cur_fill c' = cur_fill c /\ cur_stroke c' = cur_stroke c /\
  cur_stroke_width c' = cur_stroke_width c.

End Model.

#[local] Existing Instances M_ret M_bind.

(** ** Two models of numbers *)

(** Integers, added and compared exactly. *)
Definition exactZ : Number := mkNumber Z Z.add Z.ltb.

Canonical Structure exactZ.

(** The numbers of JavaScript: IEEE-754 binary64, as the standard library
    specifies it ([prec = 53], [emax = 1024]); [SFadd] rounds to nearest,
    ties to even, and [SFltb] is false as soon as an operand is NaN. *)
Definition binary64 : Number := mkNumber spec_float (SFadd 53 1024) SFltb.

Canonical Structure binary64.

Section ExactNotions.

#[local] Existing Instance exactZ.

(** Boundary contact: an edge of the rectangle lies on the line of the
    opposite edge of the selection box. *)
Definition touches (selectionBox : SelectionBox) (ocrRect : OcrRect) : Prop :=
  r_x ocrRect = sel_x selectionBox + sel_width selectionBox \/
  r_x ocrRect + r_w ocrRect = sel_x selectionBox \/
  r_y ocrRect = sel_y selectionBox + sel_height selectionBox \/
  r_y ocrRect + r_h ocrRect = sel_y selectionBox.

(** Area of the common part of the two boxes. *)
Definition overlapArea (selectionBox : SelectionBox) (ocrRect : OcrRect) : Z :=
  Z.max 0
    (Z.min (sel_x selectionBox + sel_width selectionBox) (r_x ocrRect + r_w ocrRect)
     - Z.max (sel_x selectionBox) (r_x ocrRect))
  * Z.max 0
      (Z.min (sel_y selectionBox + sel_height selectionBox) (r_y ocrRect + r_h ocrRect)
       - Z.max (sel_y selectionBox) (r_y ocrRect)).


(** Canvases and elements for the examples. *)
Definition blank : Canvas := mkCanvas (Some []) "#FFEBA2" "#2D2D2D" 1 0 [] [] [].
Definition elemA : SvgElement := rectElement "#FFEBA2" "#2D2D2D" 1 1 (mkOcrRect 0 0 4 4).
Definition elemB : SvgElement := rectElement "#FFEBA2" "#2D2D2D" 1 2 (mkOcrRect 5 0 4 4).
Definition elemC : SvgElement := rectElement "#FFEBA2" "#2D2D2D" 1 3 (mkOcrRect 0 5 4 4).
Definition delivered : Canvas :=
  set_storedOcrRects (Some [mkOcrRect 10 10 20 20; mkOcrRect 200 200 10 10]) blank.
Definition wholeBox : SelectionBox := mkSelectionBox 0 0 100 100.

End ExactNotions.

Section DoubleNotions.

#[local] Existing Instance binary64.

(** A finite double (a zero, a subnormal or a normal number) in its one
    encoding as sign, mantissa and exponent. *)
Definition finite64 (x : spec_float) : bool :=
  match x with
  | S754_zero _ => true
  | S754_finite _ _ _ => valid_binary 53 1024 x
  | _ => false
  end.

(** The exact value of a finite double, counted in units of [2^-1074], the
    smallest positive double: every finite double is a whole number of
    them. *)
Definition scaled (x : spec_float) : Z :=
  match x with
  | S754_finite s m e => cond_Zopp s (Z.pos m) * 2 ^ (e + 1074)
  | _ => 0
  end.

(** The exact boxes the doubles of a box denote, in units of [2^-1074]. *)
Definition exactBox (s : SelectionBox) : @SelectionBox exactZ :=
  mkSelectionBox (N := exactZ)
    (scaled (sel_x s)) (scaled (sel_y s)) (scaled (sel_width s))
    (scaled (sel_height s)).

Definition exactRect (r : OcrRect) : @OcrRect exactZ :=
  mkOcrRect (N := exactZ)
    (scaled (r_x r)) (scaled (r_y r)) (scaled (r_w r)) (scaled (r_h r)).

(** The eight numbers of a box and a rectangle are finite. *)
Definition finite_corners (s : SelectionBox) (r : OcrRect) : Prop :=
  finite64 (sel_x s) = true /\ finite64 (sel_y s) = true /\
  finite64 (sel_width s) = true /\ finite64 (sel_height s) = true /\
  finite64 (r_x r) = true /\ finite64 (r_y r) = true /\
  finite64 (r_w r) = true /\ finite64 (r_h r) = true.

(** The sum [x + w] is computed without rounding: it is finite and its
    exact value is the sum of the exact values. *)
Definition exact_sum (x w : spec_float) : Prop :=
  finite64 (num_add x w) = true /\
  scaled (num_add x w) = scaled x + scaled w.

(** The four far corners are computed without rounding. *)
Definition exact_corners (s : SelectionBox) (r : OcrRect) : Prop :=
  finite_corners s r /\
  exact_sum (sel_x s) (sel_width s) /\ exact_sum (sel_y s) (sel_height s) /\
  exact_sum (r_x r) (r_w r) /\ exact_sum (r_y r) (r_h r).

(** Boundary contact as the code sees it: an edge of the rectangle, as
    computed, equals the opposite edge of the selection box, as computed. *)
Definition edge_contact (s : SelectionBox) (r : OcrRect) : Prop :=
  SFeqb (r_x r) (num_add (sel_x s) (sel_width s)) = true \/
  SFeqb (num_add (r_x r) (r_w r)) (sel_x s) = true \/
  SFeqb (r_y r) (num_add (sel_y s) (sel_height s)) = true \/
  SFeqb (num_add (r_y r) (r_h r)) (sel_y s) = true.

(** The double nearest to an integer. *)
Definition ofZ (z : Z) : spec_float := binary_normalize 53 1024 z 0 false.

(** An integer small enough for sums of two such to be doubles. *)
Definition small (z : Z) : Prop := Z.abs z < 2 ^ 52.

(** A box and a rectangle of integers, as the doubles the code receives. *)
Definition doubleBox (s : @SelectionBox exactZ) : SelectionBox :=
  mkSelectionBox (ofZ (sel_x s)) (ofZ (sel_y s)) (ofZ (sel_width s))
                 (ofZ (sel_height s)).

Definition doubleRect (r : @OcrRect exactZ) : OcrRect :=
  mkOcrRect (ofZ (r_x r)) (ofZ (r_y r)) (ofZ (r_w r)) (ofZ (r_h r)).

Definition smallBox (s : @SelectionBox exactZ) : Prop :=
  small (sel_x s) /\ small (sel_y s) /\ small (sel_width s) /\
  small (sel_height s).

Definition smallRect (r : @OcrRect exactZ) : Prop :=
  small (r_x r) /\ small (r_y r) /\ small (r_w r) /\ small (r_h r).

(** The mantissa [q] followed by [k] zeros. *)
Definition shifted (q : positive) (k : Z) : positive :=
  match k with
  | Z.pos p => Pos.iter xO q p
  | _ => q
  end.

(** Boxes and canvases for the examples on doubles: integer coordinates
    around [2^53], where the doubles are two apart, and the boxes of the
    specification's examples. *)
Definition farBox : SelectionBox :=
  mkSelectionBox (ofZ 9007199254740992) (ofZ 0) (ofZ 1) (ofZ 10).
Definition farRect : OcrRect :=
  mkOcrRect (ofZ 9007199254740992) (ofZ 0) (ofZ 5) (ofZ 5).
Definition farCanvas : Canvas :=
  mkCanvas (Some [farRect]) "#FFEBA2" "#2D2D2D" (ofZ 1) 0 [] [] [].
Definition tenBox : SelectionBox :=
  mkSelectionBox (ofZ 0) (ofZ 0) (ofZ 10) (ofZ 10).
Definition edgeRect : OcrRect := mkOcrRect (ofZ 10) (ofZ 0) (ofZ 5) (ofZ 5).
Definition nearRect : OcrRect := mkOcrRect (ofZ 9) (ofZ 0) (ofZ 5) (ofZ 5).
Definition deliveredDoubles : Canvas :=
  mkCanvas
    (Some (doubleRect <$> [mkOcrRect (N := exactZ) 10 10 20 20;
                           mkOcrRect (N := exactZ) 200 200 10 10]))
    "#FFEBA2" "#2D2D2D" (ofZ 1) 0 [] [] [].

End DoubleNotions.

Section Generic.

Context {N : Number}.

(** ** Reading a computation *)

Lemma bind_Returned {A B} (m : M A) (k : A -> M B) (c c' : Canvas) (a : A) :
  m c = (Returned a, c') -> (m ≫= k) c = k a c'.
Proof. intros Hm. unfold mbind, M_bind, bind. now rewrite Hm. Qed.

Lemma length_eqb_0 {A} (l : list A) : l <> [] -> (length l =? 0)%nat = false.
Proof. destruct l; [congruence | reflexivity]. Qed.

(** ** The undo batcher in closed form *)

Lemma addSubCommands_run (new_elems : list SvgElement) (n : nat) :
  forall (batchCmd : BatchCommand) (c : Canvas),
    (n <= length new_elems)%nat ->
    addSubCommands new_elems n batchCmd c =
      (Returned
         (mkBatchCommand (text batchCmd)
            (stack batchCmd ++ reverse (InsertElementCommand <$> take n new_elems))),
       c).
Proof.
  induction n as [|i IH]; intros batchCmd c Hn; simpl.
  - rewrite app_nil_r. now destruct batchCmd.
  - destruct (lookup_lt_is_Some_2 new_elems i) as [elem Helem]; [lia|].
    rewrite Helem, IH by lia. simpl.
    rewrite (take_S_r _ _ _ Helem), fmap_app, reverse_app, <- app_assoc.
    reflexivity.
Qed.

Lemma isEmpty_batchOf (name : option string) (elems : list SvgElement) :
  elems <> [] -> isEmpty (batchOf name elems) = false.
Proof.
  intros Hne. unfold isEmpty, batchOf. cbn [stack].
  rewrite length_reverse, length_fmap. now apply length_eqb_0.
Qed.

Lemma finalizeCreation_run (elems : list SvgElement) (name : option string)
    (c : Canvas) :
  elems <> [] ->
  finalizeCreation (Some elems) name c = (Returned (), finalized name elems c).
Proof.
  intros Hne. unfold finalizeCreation.
  rewrite (length_eqb_0 _ Hne).
  erewrite bind_Returned by (apply addSubCommands_run; lia).
  rewrite firstn_all. cbn [newBatchCommand text stack app].
  fold (batchOf name elems). now rewrite (isEmpty_batchOf _ _ Hne).
Qed.

(** ** The drawer in closed form *)

Lemma maxId_app (a b : list SvgElement) :
  maxId (a ++ b) = Nat.max (maxId a) (maxId b).
Proof. induction a as [|e a IH]; simpl; [done|]. rewrite IH. lia. Qed.

Lemma maxId_ge (d : list SvgElement) (e : SvgElement) :
  e ∈ d -> (attr_id e <= maxId d)%nat.
Proof. induction 1; simpl; lia. Qed.

Lemma maxId_rectElements f s sw (n : nat) (rects : list OcrRect) :
  rects <> [] ->
  maxId (rectElements f s sw n rects) = (n + length rects)%nat.
Proof.
  revert n. induction rects as [|r rest IH]; intros n Hne; [done|].
  simpl. destruct rest as [|r' rest'].
  - simpl. lia.
  - rewrite IH by done. simpl. lia.
Qed.

Lemma drawRect_run (r : OcrRect) (new_elems : list SvgElement) (c : Canvas) :
  drawRect r new_elems c =
    (Returned (new_elems ++ drawnElements c [r]), drawn [r] c).
Proof.
  unfold drawn, drawnElements, idBase, set_document, set_obj_num. simpl.
  now rewrite Nat.add_1_r.
Qed.

Lemma idBase_drawn_one (r : OcrRect) (c : Canvas) :
  idBase (drawn [r] c) = S (idBase c).
Proof.
  unfold idBase, drawn, drawnElements. simpl. rewrite maxId_app. simpl.
  unfold idBase. lia.
Qed.

Lemma drawn_step (r : OcrRect) (rest : list OcrRect) (c : Canvas) :
  drawnElements c [r] ++ drawnElements (drawn [r] c) rest
    = drawnElements c (r :: rest) /\
  drawn rest (drawn [r] c) = drawn (r :: rest) c.
Proof.
  remember (drawn [r] c) as c1 eqn:Hc1.
  assert (Hb : idBase c1 = S (idBase c)) by (subst; apply idBase_drawn_one).
  unfold drawn, drawnElements. rewrite Hb. subst c1.
  unfold drawn, drawnElements, set_document, set_obj_num. simpl.
  split; [reflexivity|].
  rewrite <- !app_assoc. simpl.
  destruct rest as [|r' rest']; simpl.
  - now rewrite !Nat.add_1_r.
  - now rewrite !Nat.add_succ_r.
Qed.

Lemma forEach_drawRect_run (rects : list OcrRect) :
  forall (new_elems : list SvgElement) (c : Canvas),
    forEach_drawRect rects new_elems c =
      (Returned (new_elems ++ drawnElements c rects), drawn rects c).
Proof.
  induction rects as [|r rest IH]; intros new_elems c.
  - simpl. unfold drawn, drawnElements. simpl.
    rewrite !app_nil_r. now destruct c.
  - cbn [forEach_drawRect].
    erewrite bind_Returned by apply drawRect_run.
    rewrite IH. destruct (drawn_step r rest c) as [<- ->].
    now rewrite app_assoc.
Qed.

Lemma length_rectElements f s sw n rects :
  length (rectElements f s sw n rects) = length rects.
Proof. revert n. induction rects; intros n; simpl; auto. Qed.

Lemma geometry_rectElements f s sw n rects :
  geometry <$> rectElements f s sw n rects = rects.
Proof.
  revert n. induction rects as [|[] rest IH]; intros n; simpl; [done|].
  now rewrite IH.
Qed.

Lemma rectElements_nil_inv f s sw n rects :
  rectElements f s sw n rects = [] -> rects = [].
Proof. destruct rects; [done | discriminate]. Qed.

Lemma drawOcrRects_run (rects : list OcrRect) (c : Canvas) :
  rects <> [] ->
  drawOcrRects (Some rects) c =
    (Returned (),
     finalized (Some "Create All Occlusion Masks") (drawnElements c rects)
       (drawn rects c)).
Proof.
  intros Hne. unfold drawOcrRects. rewrite (length_eqb_0 _ Hne).
  erewrite bind_Returned by apply forEach_drawRect_run.
  apply finalizeCreation_run. simpl.
  intros Hnil. now apply rectElements_nil_inv in Hnil.
Qed.

(** ** The selection filter *)

Lemma rectsToDraw_filter (selectionBox : SelectionBox) (ocrRects : list OcrRect) :
  rectsToDraw selectionBox ocrRects = List.filter (intersects selectionBox) ocrRects.
Proof.
  unfold rectsToDraw.
  enough (H : forall acc,
             fold_left
               (fun acc ocrRect =>
                  if intersects selectionBox ocrRect then acc ++ [ocrRect] else acc)
               ocrRects acc
             = acc ++ List.filter (intersects selectionBox) ocrRects)
    by apply (H []).
  induction ocrRects as [|r rest IH]; intros acc; simpl.
  - now rewrite app_nil_r.
  - rewrite IH. destruct (intersects selectionBox r); [|done].
    now rewrite <- app_assoc.
Qed.

Lemma intersects_spec (selectionBox : SelectionBox) (ocrRect : OcrRect) :
  intersects selectionBox ocrRect = true <->
  num_lt (sel_x selectionBox) (num_add (r_x ocrRect) (r_w ocrRect)) = true /\
  num_gt (num_add (sel_x selectionBox) (sel_width selectionBox)) (r_x ocrRect)
    = true /\
  num_lt (sel_y selectionBox) (num_add (r_y ocrRect) (r_h ocrRect)) = true /\
  num_gt (num_add (sel_y selectionBox) (sel_height selectionBox)) (r_y ocrRect)
    = true.
Proof. unfold intersects. cbv zeta. rewrite !andb_true_iff. tauto. Qed.

Lemma drawOcrRectsInSelection_run (sel : SelectionBox) (rects : list OcrRect)
    (c : Canvas) :
  storedOcrRects c = Some rects ->
  rects <> [] ->
  drawOcrRectsInSelection (Some sel) c =
    (Returned (),
     if (0 <? length (rectsToDraw sel rects))%nat then
       finalized (Some "Create Occlusion Masks in Selection")
         (drawnElements c (rectsToDraw sel rects))
         (drawn (rectsToDraw sel rects) c)
     else c).
Proof.
  intros Hst Hne. unfold drawOcrRectsInSelection.
  erewrite bind_Returned by reflexivity.
  rewrite Hst, (length_eqb_0 _ Hne).
  destruct (0 <? length (rectsToDraw sel rects))%nat eqn:Hlen; [|done].
  erewrite bind_Returned by apply forEach_drawRect_run.
  apply finalizeCreation_run. simpl.
  intros Hnil. apply rectElements_nil_inv in Hnil.
  rewrite Hnil in Hlen. discriminate.
Qed.

Lemma drawOcrRectsInSelection_idle (sel : option SelectionBox) (c : Canvas) :
  storedOcrRects c = None \/ storedOcrRects c = Some [] ->
  drawOcrRectsInSelection sel c = (Returned (), c).
Proof.
  intros Hst. unfold drawOcrRectsInSelection.
  erewrite bind_Returned by reflexivity.
  now destruct Hst as [-> | ->].
Qed.

(** ** Where each operation can leave the canvas *)

Lemma finalizeCreation_final (new_elems : option (list SvgElement))
    (name : option string) (c : Canvas) :
  finalizeCreation new_elems name c = (Returned (), c) \/
  exists elems, new_elems = Some elems /\ elems <> [] /\
    finalizeCreation new_elems name c = (Returned (), finalized name elems c).
Proof.
  destruct new_elems as [[|e es]|]; [now left | | now left].
  right. exists (e :: es). split; [done|]. split; [done|].
  now apply finalizeCreation_run.
Qed.

Lemma drawOcrRects_final (rects : option (list OcrRect)) (c : Canvas) :
  drawOcrRects rects c = (Returned (), c) \/
  exists rs, rects = Some rs /\ rs <> [] /\
    drawOcrRects rects c =
      (Returned (),
       finalized (Some "Create All Occlusion Masks") (drawnElements c rs)
         (drawn rs c)).
Proof.
  destruct rects as [[|r rs]|]; [now left | | now left].
  right. exists (r :: rs). split; [done|]. split; [done|].
  now apply drawOcrRects_run.
Qed.

Lemma drawOcrRectsInSelection_final (selectionBox : option SelectionBox)
    (c : Canvas) :
  (final (drawOcrRectsInSelection selectionBox c) = c /\
   forall sel, selectionBox = Some sel -> rectsToDraw sel (storedList c) = []) \/
  exists sel rects, selectionBox = Some sel /\ storedOcrRects c = Some rects /\
    rectsToDraw sel rects <> [] /\
    drawOcrRectsInSelection selectionBox c =
      (Returned (),
       finalized (Some "Create Occlusion Masks in Selection")
         (drawnElements c (rectsToDraw sel rects))
         (drawn (rectsToDraw sel rects) c)).
Proof.
  unfold storedList.
  destruct (storedOcrRects c) as [[|r rs]|] eqn:Hst.
  - left. rewrite drawOcrRectsInSelection_idle; auto.
  - destruct selectionBox as [sel|].
    + assert (Hrun := drawOcrRectsInSelection_run sel (r :: rs) c Hst).
      destruct (rectsToDraw sel (r :: rs)) as [|t ts] eqn:Htodo.
      * left. rewrite Hrun by done. split; [done|].
        intros sel' [= <-]. exact Htodo.
      * right. exists sel, (r :: rs). rewrite Htodo.
        split; [done|]. split; [done|]. split; [done|].
        rewrite Hrun; done.
    + left. split; [|done]. unfold drawOcrRectsInSelection.
      erewrite bind_Returned by reflexivity. now rewrite Hst.
  - left. rewrite drawOcrRectsInSelection_idle; auto.
Qed.

Lemma history_ok_finalized (name : option string) (elems : list SvgElement)
    (c : Canvas) :
  elems <> [] -> history_ok c -> history_ok (finalized name elems c).
Proof.
  intros Hne Hok. unfold history_ok, finalized. simpl.
  apply Forall_app. split; [exact Hok|].
  constructor; [now apply isEmpty_batchOf | constructor].
Qed.

Lemma drawOcrRectsInSelection_draws (sel : SelectionBox) (c : Canvas) :
  exists els,
    document (final (drawOcrRectsInSelection (Some sel) c)) = document c ++ els /\
    geometry <$> els = rectsToDraw sel (storedList c).
Proof.
  destruct (drawOcrRectsInSelection_final (Some sel) c)
    as [[Hsame Hnone] | (sel' & rects & [= <-] & Hst & Hne & Hrun)].
  - exists []. rewrite Hsame, app_nil_r. split; [done|].
    now rewrite (Hnone sel).
  - exists (drawnElements c (rectsToDraw sel rects)). rewrite Hrun.
    split; [reflexivity|].
    unfold storedList, drawnElements. rewrite Hst. apply geometry_rectElements.
Qed.

(** ** Further lemmas on the closed forms *)

Lemma drawOcrRects_after (rects : option (list OcrRect)) (c : Canvas) :
  drawOcrRects rects c =
    (Returned (), after_draw "Create All Occlusion Masks" (default [] rects) c).
Proof.
  destruct rects as [[|r rs]|]; [reflexivity | | reflexivity].
  now apply drawOcrRects_run.
Qed.

Lemma drawOcrRectsInSelection_after (selectionBox : option SelectionBox)
    (c : Canvas) :
  final (drawOcrRectsInSelection selectionBox c) =
    after_draw "Create Occlusion Masks in Selection" (todoOf selectionBox c) c.
Proof.
  destruct (drawOcrRectsInSelection_final selectionBox c)
    as [[Hsame Hnone] | (sel & rects & -> & Hst & Hne & ->)].
  - rewrite Hsame. destruct selectionBox as [sel|]; [|reflexivity].
    simpl. now rewrite (Hnone sel).
  - unfold todoOf, storedList. rewrite Hst. simpl.
    destruct (rectsToDraw sel rects); [done | reflexivity].
Qed.

Lemma rectElements_app f s sw n (a b : list OcrRect) :
  rectElements f s sw n (a ++ b) =
    rectElements f s sw n a ++ rectElements f s sw (n + length a) b.
Proof.
  revert n. induction a as [|r a IH]; intros n; simpl.
  - now rewrite Nat.add_0_r.
  - rewrite IH. now rewrite Nat.add_succ_r.
Qed.

Lemma ids_rectElements f s sw n (rects : list OcrRect) :
  attr_id <$> rectElements f s sw n rects = seq (S n) (length rects).
Proof.
  revert n. induction rects as [|r rest IH]; intros n; simpl; [done|].
  now rewrite IH.
Qed.

Lemma styled_rectElements f s sw n (rects : list OcrRect) :
  Forall (styled f s sw) (rectElements f s sw n rects).
Proof.
  revert n. induction rects as [|r rest IH]; intros n; simpl; constructor.
  - now repeat split.
  - apply IH.
Qed.

Lemma drawnElements_nil_inv (c : Canvas) (rects : list OcrRect) :
  drawnElements c rects = [] -> rects = [].
Proof. apply rectElements_nil_inv. Qed.

(** What [after_draw] does to each part of the canvas. *)
Lemma after_draw_parts (name : string) (rects : list OcrRect) (c : Canvas) :
  document (after_draw name rects c) = document c ++ drawnElements c rects /\
  obj_num (after_draw name rects c)
    = match rects with
      | [] => obj_num c
      | _ :: _ => (idBase c + length rects)%nat
      end /\
  storedOcrRects (after_draw name rects c) = storedOcrRects c /\
  same_style c (after_draw name rects c) /\
  (rects = [] -> after_draw name rects c = c) /\
  (rects <> [] ->
   undoStack (after_draw name rects c)
     = undoStack c ++ [batchOf (Some name) (drawnElements c rects)] /\
   events (after_draw name rects c)
     = events c ++ [mkEvent "changed" (drawnElements c rects)]).
Proof.
  destruct rects as [|r rs]; simpl.
  - rewrite app_nil_r. repeat split; congruence.
  - repeat split; congruence.
Qed.

Lemma idBase_after_draw (name : string) (rects : list OcrRect) (c : Canvas) :
  idBase (after_draw name rects c) = (idBase c + length rects)%nat.
Proof.
  destruct rects as [|r rs]; [simpl; lia|].
  unfold idBase at 1.
  destruct (after_draw_parts name (r :: rs) c) as (-> & -> & _).
  rewrite maxId_app. unfold drawnElements.
  rewrite maxId_rectElements by done. unfold idBase. lia.
Qed.

Lemma ids_unique_after_draw (name : string) (rects : list OcrRect) (c : Canvas) :
  ids_unique c -> ids_unique (after_draw name rects c).
Proof.
  intros [Hnd Hle]. unfold ids_unique.
  destruct (after_draw_parts name rects c) as (-> & -> & _).
  unfold drawnElements. split.
  - rewrite fmap_app, ids_rectElements. apply NoDup_app.
    split; [exact Hnd|]. split; [|apply NoDup_seq].
    intros i Hi Hseq. apply elem_of_seq in Hseq.
    apply list_elem_of_fmap in Hi as (e & -> & He).
    rewrite Forall_forall in Hle. specialize (Hle e He).
    unfold idBase in Hseq. lia.
  - apply Forall_app. split.
    + eapply Forall_impl; [exact Hle|]. intros e He. simpl in He.
      unfold idBase. destruct rects; lia.
    + apply Forall_forall. intros e He.
      assert (Hid : attr_id e ∈ attr_id <$> rectElements (cur_fill c)
                      (cur_stroke c) (cur_stroke_width c) (idBase c) rects)
        by (apply list_elem_of_fmap; eauto).
      rewrite ids_rectElements in Hid. apply elem_of_seq in Hid.
      destruct rects as [|r rs]; [now apply elem_of_nil in He | lia].
Qed.

(** The identifiers [after_draw] hands out are not in the document. *)
Lemma fresh_drawnElements (c : Canvas) (rects : list OcrRect) :
  Forall (fun e => attr_id e ∉ attr_id <$> document c) (drawnElements c rects).
Proof.
  apply Forall_forall. intros e He Hin.
  assert (Hid : attr_id e ∈ attr_id <$> drawnElements c rects)
    by (apply list_elem_of_fmap; eauto).
  unfold drawnElements in Hid. rewrite ids_rectElements in Hid.
  apply elem_of_seq in Hid.
  apply list_elem_of_fmap in Hin as (e' & Heq & He').
  apply maxId_ge in He'. unfold idBase in Hid. lia.
Qed.

Lemma grows_after_draw (name : string) (rects : list OcrRect) (c : Canvas) :
  grows c (after_draw name rects c).
Proof.
  unfold grows. destruct rects as [|r rs]; simpl.
  - repeat split; reflexivity || lia.
  - repeat split; try (apply prefix_app_r; reflexivity). unfold idBase. lia.
Qed.

Lemma history_synced_finalized (name : option string) (elems : list SvgElement)
    (c : Canvas) :
  history_synced c -> history_synced (finalized name elems c).
Proof.
  intros Hs. unfold history_synced, finalized. simpl.
  apply Forall2_app; [exact Hs|]. constructor; [|constructor].
  split; reflexivity.
Qed.

Lemma history_synced_after_draw (name : string) (rects : list OcrRect) (c : Canvas) :
  history_synced c -> history_synced (after_draw name rects c).
Proof.
  intros Hs. destruct rects as [|r rs]; [exact Hs|].
  unfold after_draw. apply history_synced_finalized. exact Hs.
Qed.


Lemma filter_idempotent {A} (p : A -> bool) (l : list A) :
  List.filter p (List.filter p l) = List.filter p l.
Proof.
  induction l as [|x l IH]; simpl; [done|].
  destruct (p x) eqn:Hp; [|exact IH]. simpl. now rewrite Hp, IH.
Qed.

Lemma storedList_after_draw (name : string) (rects : list OcrRect) (c : Canvas) :
  storedList (after_draw name rects c) = storedList c.
Proof.
  unfold storedList.
  now destruct (after_draw_parts name rects c) as (_ & _ & -> & _).
Qed.

Lemma drawnElements_after_draw (name : string) (r1 r2 : list OcrRect) (c : Canvas) :
  drawnElements c (r1 ++ r2) =
    drawnElements c r1 ++ drawnElements (after_draw name r1 c) r2.
Proof.
  unfold drawnElements. rewrite idBase_after_draw.
  destruct (after_draw_parts name r1 c) as (_ & _ & _ & (-> & -> & ->) & _).
  apply rectElements_app.
Qed.

(** ** The claims that hold for every model of numbers *)

(** C2: for a non-empty sequence of created elements, [finalizeCreation]
    returns having pushed one batch whose sub-commands are one
    [InsertElementCommand] per element in reverse creation order, and having
    emitted one "changed" event that carries the elements in creation
    order. *)
Theorem finalizeCreation_reverse_subcommands :
  forall (c : Canvas) (elems : list SvgElement) (name : option string),
    elems <> [] ->
    result (finalizeCreation (Some elems) name c) = Returned () /\
    (exists b,
        undoStack (final (finalizeCreation (Some elems) name c))
          = undoStack c ++ [b] /\
        stack b = reverse (InsertElementCommand <$> elems)) /\
    events (final (finalizeCreation (Some elems) name c))
      = events c ++ [mkEvent "changed" elems].
Proof.
  intros c elems name Hne. rewrite (finalizeCreation_run _ _ _ Hne).
  split; [reflexivity|]. split; [|reflexivity].
  exists (batchOf name elems). split; reflexivity.
Qed.

(** C3: for a non-empty sequence of descriptors, [drawOcrRects] returns
    having added to the document one element per descriptor, in input
    order, and having emitted exactly one "changed" event, whose payload is
    the created elements in that order. *)
Theorem drawOcrRects_one_element_per_rect :
  forall (c : Canvas) (rects : list OcrRect),
    rects <> [] ->
    result (drawOcrRects (Some rects) c) = Returned () /\
    exists els,
      document (final (drawOcrRects (Some rects) c)) = document c ++ els /\
      length els = length rects /\
      geometry <$> els = rects /\
      events (final (drawOcrRects (Some rects) c))
        = events c ++ [mkEvent "changed" els].
Proof.
  intros c rects Hne. rewrite (drawOcrRects_run _ _ Hne).
  split; [reflexivity|].
  exists (drawnElements c rects). unfold drawnElements.
  split; [reflexivity|]. split; [apply length_rectElements|].
  split; [apply geometry_rectElements | reflexivity].
Qed.

(** C4: on an empty or absent argument [drawOcrRects] and
    [finalizeCreation], and on an empty or absent stored sequence
    [drawOcrRectsInSelection] (whatever the selection box, even absent),
    return at once and leave the whole canvas as it was: no element, no
    history entry, no event. *)
Theorem empty_input_is_noop :
  forall (c : Canvas) (name : option string) (selectionBox : option SelectionBox),
    drawOcrRects None c = (Returned (), c) /\
    drawOcrRects (Some []) c = (Returned (), c) /\
    finalizeCreation None name c = (Returned (), c) /\
    finalizeCreation (Some []) name c = (Returned (), c) /\
    drawOcrRectsInSelection selectionBox (set_storedOcrRects None c)
      = (Returned (), set_storedOcrRects None c) /\
    drawOcrRectsInSelection selectionBox (ready c) = (Returned (), ready c).
Proof.
  intros c name selectionBox.
  repeat split; try reflexivity;
    apply drawOcrRectsInSelection_idle; simpl; auto.
Qed.

(** C5: [storeOcrResults] always returns and sets the stored sequence to
    its argument, whatever it is (also empty or absent), touching nothing
    else; after two calls the canvas is the one a single call with the
    second argument gives, so the stored sequence is the second delivery and
    a later [drawOcrRectsInSelection] behaves as if the first delivery had
    never been made. *)
Theorem storeOcrResults_replaces :
  forall (c : Canvas) (first second : option (list OcrRect))
         (selectionBox : option SelectionBox),
    storeOcrResults second c = (Returned (), set_storedOcrRects second c) /\
    storedOcrRects (final (storeOcrResults (Some []) c)) = Some [] /\
    storedOcrRects
      (final (storeOcrResults second (final (storeOcrResults first c)))) = second /\
    final (storeOcrResults second (final (storeOcrResults first c)))
      = final (storeOcrResults second c) /\
    drawOcrRectsInSelection selectionBox
      (final (storeOcrResults second (final (storeOcrResults first c))))
      = drawOcrRectsInSelection selectionBox (final (storeOcrResults second c)) /\
    (forall sel, exists els,
        document
          (final (drawOcrRectsInSelection (Some sel)
                    (final (storeOcrResults second
                              (final (storeOcrResults first c))))))
          = document c ++ els /\
        geometry <$> els = rectsToDraw sel (default [] second)).
Proof.
  intros c first second selectionBox.
  split; [reflexivity|]. split; [reflexivity|]. split; [reflexivity|].
  split; [reflexivity|]. split; [reflexivity|].
  intros sel.
  apply (drawOcrRectsInSelection_draws sel
           (set_storedOcrRects second (set_storedOcrRects first c))).
Qed.

(** C6: with a non-empty stored sequence, [drawOcrRectsInSelection]
    returns; if some stored rectangle passes the test it has added one
    element per selected descriptor, in order, and pushed exactly one
    history entry, named "Create Occlusion Masks in Selection"; if none
    passes, the canvas is untouched. *)
Theorem drawOcrRectsInSelection_elements_and_history :
  forall (c : Canvas) (rects : list OcrRect) (sel : SelectionBox),
    storedOcrRects c = Some rects ->
    rects <> [] ->
    result (drawOcrRectsInSelection (Some sel) c) = Returned () /\
    (rectsToDraw sel rects <> [] ->
     exists els b,
       document (final (drawOcrRectsInSelection (Some sel) c)) = document c ++ els /\
       length els = length (rectsToDraw sel rects) /\
       geometry <$> els = rectsToDraw sel rects /\
       undoStack (final (drawOcrRectsInSelection (Some sel) c))
         = undoStack c ++ [b] /\
       text b = "Create Occlusion Masks in Selection" /\
       stack b = reverse (InsertElementCommand <$> els)) /\
    (rectsToDraw sel rects = [] ->
     final (drawOcrRectsInSelection (Some sel) c) = c).
Proof.
  intros c rects sel Hst Hne.
  rewrite (drawOcrRectsInSelection_run sel rects c Hst Hne).
  split; [reflexivity|]. split.
  - intros Htodo. rewrite (proj2 (Nat.ltb_lt _ _)) by
      (destruct (rectsToDraw sel rects); [done | simpl; lia]).
    exists (drawnElements c (rectsToDraw sel rects)),
      (batchOf (Some "Create Occlusion Masks in Selection")
         (drawnElements c (rectsToDraw sel rects))).
    unfold drawnElements.
    split; [reflexivity|]. split; [apply length_rectElements|].
    split; [apply geometry_rectElements|]. repeat split.
  - intros ->. reflexivity.
Qed.

(** C7: [finalizeCreation] either leaves the undo stack as it was or pushes
    exactly one batch, and that batch has a sub-command; when the elements
    argument is non-empty the batch is pushed and has one sub-command per
    element. Hence a history whose batches are all non-empty stays so
    through every operation of the extension. *)
Theorem finalizeCreation_pushes_nonempty_batch :
  forall (c : Canvas) (new_elems : option (list SvgElement)) (name : option string),
    (undoStack (final (finalizeCreation new_elems name c)) = undoStack c \/
     exists b,
       undoStack (final (finalizeCreation new_elems name c)) = undoStack c ++ [b] /\
       isEmpty b = false /\ stack b <> []) /\
    (forall elems, new_elems = Some elems -> elems <> [] ->
       exists b,
         undoStack (final (finalizeCreation new_elems name c)) = undoStack c ++ [b] /\
         isEmpty b = false /\ length (stack b) = length elems) /\
    (history_ok c ->
     history_ok (final (finalizeCreation new_elems name c)) /\
     (forall rects, history_ok (final (drawOcrRects rects c))) /\
     (forall selectionBox,
         history_ok (final (drawOcrRectsInSelection selectionBox c))) /\
     (forall rects, history_ok (final (storeOcrResults rects c)))).
Proof.
  intros c new_elems name.
  assert (Hlen : forall n es, es <> [] ->
            length (stack (batchOf n es)) = length es /\ stack (batchOf n es) <> []).
  { intros n es Hes. assert (Hl : length (stack (batchOf n es)) = length es)
      by (unfold batchOf; cbn [stack]; now rewrite length_reverse, length_fmap).
    split; [exact Hl|]. intros Hnil. rewrite Hnil in Hl.
    destruct es; [done | discriminate]. }
  split; [|split].
  - destruct (finalizeCreation_final new_elems name c)
      as [-> | (elems & -> & Hne & ->)]; [now left|].
    right. exists (batchOf name elems). split; [reflexivity|].
    split; [now apply isEmpty_batchOf | now apply Hlen].
  - intros elems -> Hne. rewrite (finalizeCreation_run _ _ _ Hne).
    exists (batchOf name elems). split; [reflexivity|].
    split; [now apply isEmpty_batchOf | now apply Hlen].
  - intros Hok. split; [|split; [|split]].
    + destruct (finalizeCreation_final new_elems name c)
        as [-> | (elems & -> & Hne & ->)]; [exact Hok|].
      now apply history_ok_finalized.
    + intros rects. destruct (drawOcrRects_final rects c)
        as [-> | (rs & -> & Hne & ->)]; [exact Hok|].
      apply history_ok_finalized; [|exact Hok].
      intros Hnil. now apply rectElements_nil_inv in Hnil.
    + intros selectionBox.
      destruct (drawOcrRectsInSelection_final selectionBox c)
        as [[-> _] | (sel & rects & -> & Hst & Hne & ->)]; [exact Hok|].
      apply history_ok_finalized; [|exact Hok].
      intros Hnil. now apply rectElements_nil_inv in Hnil.
    + intros rects. exact Hok.
Qed.

(** C8: for a non-empty sequence of elements, the batch [finalizeCreation]
    pushes is named by the name supplied, and by "Create Occlusion Masks"
    when the name is absent or the empty string. *)
Theorem finalizeCreation_batch_name :
  forall (c : Canvas) (elems : list SvgElement) (name : option string),
    elems <> [] ->
    exists b,
      undoStack (final (finalizeCreation (Some elems) name c)) = undoStack c ++ [b] /\
      (forall s, name = Some s -> s <> "" -> text b = s) /\
      (name = None \/ name = Some "" -> text b = "Create Occlusion Masks").
Proof.
  intros c elems name Hne. rewrite (finalizeCreation_run _ _ _ Hne).
  exists (batchOf name elems). split; [reflexivity|]. split.
  - intros s -> Hs. unfold batchOf, or_default. cbn [text].
    destruct (String.eqb_spec s ""); [contradiction | reflexivity].
  - intros [-> | ->]; reflexivity.
Qed.

(** C9: neither [drawOcrRects] nor [drawOcrRectsInSelection] (nor
    [finalizeCreation]) changes the stored sequence, whatever the arguments
    and however the call ends; [storeOcrResults] sets it. *)
Theorem drawing_preserves_store :
  forall (c : Canvas) (rects : option (list OcrRect))
         (selectionBox : option SelectionBox)
         (new_elems : option (list SvgElement)) (name : option string),
    storedOcrRects (final (drawOcrRects rects c)) = storedOcrRects c /\
    storedOcrRects (final (drawOcrRectsInSelection selectionBox c))
      = storedOcrRects c /\
    storedOcrRects (final (finalizeCreation new_elems name c)) = storedOcrRects c /\
    storedOcrRects (final (storeOcrResults rects c)) = rects.
Proof.
  intros c rects selectionBox new_elems name.
  split; [|split; [|split]].
  - destruct (drawOcrRects_final rects c) as [-> | (rs & _ & _ & ->)]; reflexivity.
  - destruct (drawOcrRectsInSelection_final selectionBox c)
      as [[-> _] | (sel & rs & _ & _ & _ & ->)]; reflexivity.
  - destruct (finalizeCreation_final new_elems name c)
      as [-> | (elems & _ & _ & ->)]; reflexivity.
  - reflexivity.
Qed.

(** C10: the test is symmetric: it gives the same answer when the
    rectangle is taken as the selection box and the selection box as the
    rectangle; so for any two boxes [a] and [b], [a] taken as selection box
    meets [b] if and only if [b] taken as selection box meets [a]. This
    holds whatever the numbers are, doubles included: the same sums are
    computed in both roles and [a > b] is [b < a]. *)
Theorem intersects_symmetric :
  (forall (selectionBox : SelectionBox) (ocrRect : OcrRect),
      intersects (asSelectionBox ocrRect) (asOcrRect selectionBox)
        = intersects selectionBox ocrRect) /\
  (forall a b : OcrRect,
      intersects (asSelectionBox a) b = true <->
      intersects (asSelectionBox b) a = true).
Proof.
  split.
  - intros selectionBox ocrRect. apply eq_true_iff_eq.
    rewrite !intersects_spec. unfold num_gt. simpl. tauto.
  - intros a b. rewrite !intersects_spec. unfold num_gt. simpl. tauto.
Qed.

(** ** Further properties of the code *)

(** X1: [finalizeCreation] and [drawOcrRects] return normally on every
    input: the backward loop of [finalizeCreation] never reads outside the
    array it walks. *)
Theorem finalizeCreation_drawOcrRects_never_throw :
  forall (c : Canvas) (new_elems : option (list SvgElement))
         (name : option string) (rects : option (list OcrRect)),
    result (finalizeCreation new_elems name c) = Returned () /\
    result (drawOcrRects rects c) = Returned ().
Proof.
  intros c new_elems name rects. split.
  - destruct (finalizeCreation_final new_elems name c)
      as [-> | (elems & _ & _ & ->)]; reflexivity.
  - now rewrite drawOcrRects_after.
Qed.

(** X2: [drawOcrRectsInSelection] throws exactly when the selection box is
    absent while the stored sequence is non-empty (the box is read only
    after the store has been checked); it then has changed nothing. In
    every other case it returns normally. *)
Theorem drawOcrRectsInSelection_throws_iff :
  forall (c : Canvas) (selectionBox : option SelectionBox),
    (result (drawOcrRectsInSelection selectionBox c) = Thrown "TypeError" <->
     selectionBox = None /\ storedList c <> []) /\
    (result (drawOcrRectsInSelection selectionBox c) = Returned () <->
     selectionBox <> None \/ storedList c = []) /\
    (selectionBox = None -> final (drawOcrRectsInSelection selectionBox c) = c).
Proof.
  intros c selectionBox.
  assert (Hcases :
    (drawOcrRectsInSelection selectionBox c = (Thrown "TypeError", c) /\
     selectionBox = None /\ storedList c <> []) \/
    (result (drawOcrRectsInSelection selectionBox c) = Returned () /\
     (selectionBox <> None \/ storedList c = []))).
  { unfold storedList. destruct (storedOcrRects c) as [[|r rs]|] eqn:Hst.
    - right. rewrite drawOcrRectsInSelection_idle by auto. simpl. auto.
    - destruct selectionBox as [sel|].
      + right. rewrite (drawOcrRectsInSelection_run sel (r :: rs) c Hst) by done.
        split; [reflexivity | now left].
      + left. split; [|done]. unfold drawOcrRectsInSelection.
        erewrite bind_Returned by reflexivity. now rewrite Hst.
    - right. rewrite drawOcrRectsInSelection_idle by auto. simpl. auto. }
  split; [|split].
  - split.
    + intros Hthrown. destruct Hcases as [(_ & H) | (Hret & _)]; [exact H|].
      rewrite Hret in Hthrown. discriminate.
    + intros [Hbox Hne]. destruct Hcases as [(-> & _) | (_ & [H | H])];
        [reflexivity | contradiction | contradiction].
  - split.
    + intros Hret. destruct Hcases as [(Hthrown & _) | (_ & H)]; [|exact H].
      rewrite Hthrown in Hret. discriminate.
    + intros H. destruct Hcases as [(_ & Hbox & Hne) | (Hret & _)]; [|exact Hret].
      destruct H; contradiction.
  - intros ->. now rewrite drawOcrRectsInSelection_after.
Qed.

(** X3: for a non-empty sequence of descriptors, [drawOcrRects] pushes
    exactly one history entry, named "Create All Occlusion Masks", whose
    sub-commands wrap the elements it added to the document, last drawn
    first. *)
Theorem drawOcrRects_history_entry :
  forall (c : Canvas) (rects : list OcrRect),
    rects <> [] ->
    exists els,
      document (final (drawOcrRects (Some rects) c)) = document c ++ els /\
      undoStack (final (drawOcrRects (Some rects) c))
        = undoStack c ++
          [mkBatchCommand "Create All Occlusion Masks"
             (reverse (InsertElementCommand <$> els))].
Proof.
  intros c rects Hne. rewrite drawOcrRects_after. simpl.
  destruct (after_draw_parts "Create All Occlusion Masks" rects c)
    as (Hdoc & _ & _ & _ & _ & Hpush).
  destruct (Hpush Hne) as [Hundo _].
  exists (drawnElements c rects). split; [exact Hdoc | exact Hundo].
Qed.

(** X4: when some stored rectangle is selected, [drawOcrRectsInSelection]
    emits exactly one "changed" event, and its payload is the elements just
    added to the document, in the order of the stored sequence. *)
Theorem drawOcrRectsInSelection_one_event :
  forall (c : Canvas) (rects : list OcrRect) (sel : SelectionBox),
    storedOcrRects c = Some rects ->
    rectsToDraw sel rects <> [] ->
    exists els,
      document (final (drawOcrRectsInSelection (Some sel) c)) = document c ++ els /\
      geometry <$> els = rectsToDraw sel rects /\
      events (final (drawOcrRectsInSelection (Some sel) c))
        = events c ++ [mkEvent "changed" els].
Proof.
  intros c rects sel Hst Hne. rewrite drawOcrRectsInSelection_after.
  unfold todoOf, storedList. rewrite Hst. simpl.
  destruct (after_draw_parts "Create Occlusion Masks in Selection"
              (rectsToDraw sel rects) c) as (Hdoc & _ & _ & _ & _ & Hpush).
  destruct (Hpush Hne) as [_ Hev].
  exists (drawnElements c (rectsToDraw sel rects)).
  split; [exact Hdoc|]. split; [apply geometry_rectElements | exact Hev].
Qed.

(** X5: every element either drawing method creates is a [rect] carrying
    the fill, stroke and stroke width the canvas has when the method is
    called, with the descriptor's position and size copied as they are; the
    methods leave that style unchanged. *)
Theorem drawn_elements_styled :
  forall (c : Canvas) (rects : option (list OcrRect))
         (selectionBox : option SelectionBox),
    (exists els,
        document (final (drawOcrRects rects c)) = document c ++ els /\
        geometry <$> els = default [] rects /\
        Forall (styled (cur_fill c) (cur_stroke c) (cur_stroke_width c)) els) /\
    (exists els,
        document (final (drawOcrRectsInSelection selectionBox c))
          = document c ++ els /\
        geometry <$> els = todoOf selectionBox c /\
        Forall (styled (cur_fill c) (cur_stroke c) (cur_stroke_width c)) els) /\
    same_style c (final (drawOcrRects rects c)) /\
    same_style c (final (drawOcrRectsInSelection selectionBox c)).
Proof.
  intros c rects selectionBox.
  rewrite drawOcrRects_after, drawOcrRectsInSelection_after. simpl.
  split; [|split; [|split]].
  - exists (drawnElements c (default [] rects)).
    split; [apply after_draw_parts|].
    split; [apply geometry_rectElements | apply styled_rectElements].
  - exists (drawnElements c (todoOf selectionBox c)).
    split; [apply after_draw_parts|].
    split; [apply geometry_rectElements | apply styled_rectElements].
  - apply after_draw_parts.
  - apply after_draw_parts.
Qed.

(** X6: each drawing method asks the allocator for one identifier per
    element, after the element before it has been put in the document: on
    any canvas, the identifiers of the new elements are pairwise distinct
    and none of them is carried by an element that was already in the
    document. *)
Theorem drawn_elements_ids :
  forall (c : Canvas) (rects : option (list OcrRect))
         (selectionBox : option SelectionBox),
    (exists els,
        document (final (drawOcrRects rects c)) = document c ++ els /\
        length els = length (default [] rects) /\
        NoDup (attr_id <$> els) /\
        Forall (fun e => attr_id e ∉ attr_id <$> document c) els) /\
    (exists els,
        document (final (drawOcrRectsInSelection selectionBox c))
          = document c ++ els /\
        length els = length (todoOf selectionBox c) /\
        NoDup (attr_id <$> els) /\
        Forall (fun e => attr_id e ∉ attr_id <$> document c) els).
Proof.
  intros c rects selectionBox.
  assert (Hgen : forall name rs,
    exists els,
      document (after_draw name rs c) = document c ++ els /\
      length els = length rs /\
      NoDup (attr_id <$> els) /\
      Forall (fun e => attr_id e ∉ attr_id <$> document c) els).
  { intros name rs. exists (drawnElements c rs).
    destruct (after_draw_parts name rs c) as (Hdoc & _).
    split; [exact Hdoc|]. split; [apply length_rectElements|].
    split; [|apply fresh_drawnElements].
    unfold drawnElements. rewrite ids_rectElements. apply NoDup_seq. }
  rewrite drawOcrRects_after, drawOcrRectsInSelection_after. simpl.
  split; apply Hgen.
Qed.

(** X7: identifiers stay unique: if the identifiers in the document are
    pairwise distinct and none exceeds the allocator's counter, the same
    holds after any operation of the extension, so elements drawn by
    successive calls never share an identifier. *)
Theorem ids_unique_preserved :
  forall (c : Canvas) (rects stored : option (list OcrRect))
         (selectionBox : option SelectionBox)
         (new_elems : option (list SvgElement)) (name : option string),
    ids_unique c ->
    ids_unique (final (drawOcrRects rects c)) /\
    ids_unique (final (drawOcrRectsInSelection selectionBox c)) /\
    ids_unique (final (finalizeCreation new_elems name c)) /\
    ids_unique (final (storeOcrResults stored c)).
Proof.
  intros c rects stored selectionBox new_elems name Hok.
  rewrite drawOcrRects_after, drawOcrRectsInSelection_after.
  split; [|split; [|split]].
  - now apply ids_unique_after_draw.
  - now apply ids_unique_after_draw.
  - destruct (finalizeCreation_final new_elems name c)
      as [-> | (elems & _ & _ & ->)]; exact Hok.
  - exact Hok.
Qed.

(** X8: [finalizeCreation] registers elements and never creates any: on
    every input it leaves the document, the identifier counter and the
    ambient style as they were. *)
Theorem finalizeCreation_frame :
  forall (c : Canvas) (new_elems : option (list SvgElement)) (name : option string),
    document (final (finalizeCreation new_elems name c)) = document c /\
    obj_num (final (finalizeCreation new_elems name c)) = obj_num c /\
    same_style c (final (finalizeCreation new_elems name c)).
Proof.
  intros c new_elems name.
  destruct (finalizeCreation_final new_elems name c)
    as [-> | (elems & _ & _ & ->)]; now repeat split.
Qed.

(** X9: no operation of the extension takes anything away: the document,
    the undo stack and the event log before a call are prefixes of those
    after it, and the identifier counter never decreases; a call pushes at
    most one history entry. *)
Theorem operations_only_append :
  forall (c : Canvas) (rects stored : option (list OcrRect))
         (selectionBox : option SelectionBox)
         (new_elems : option (list SvgElement)) (name : option string),
    grows c (final (drawOcrRects rects c)) /\
    grows c (final (drawOcrRectsInSelection selectionBox c)) /\
    grows c (final (finalizeCreation new_elems name c)) /\
    grows c (final (storeOcrResults stored c)) /\
    (length (undoStack (final (drawOcrRects rects c)))
       <= S (length (undoStack c)))%nat /\
    (length (undoStack (final (drawOcrRectsInSelection selectionBox c)))
       <= S (length (undoStack c)))%nat.
Proof.
  intros c rects stored selectionBox new_elems name.
  rewrite drawOcrRects_after, drawOcrRectsInSelection_after.
  assert (Hlen : forall n rs,
            (length (undoStack (after_draw n rs c)) <= S (length (undoStack c)))%nat).
  { intros n [|r rs]; simpl; [lia|]. rewrite length_app. simpl. lia. }
  split; [apply grows_after_draw|]. split; [apply grows_after_draw|].
  split; [|split; [|split; apply Hlen]].
  - destruct (finalizeCreation_final new_elems name c)
      as [-> | (elems & _ & _ & ->)]; unfold grows; simpl;
      repeat split; try reflexivity; try (apply prefix_app_r; reflexivity); lia.
  - unfold grows. simpl. repeat split; reflexivity || lia.
Qed.

(** X10: history and events stay in step: if every history entry is
    matched, in order, by a "changed" event whose elements it wraps last
    first, the same holds after any operation of the extension. *)
Theorem history_synced_preserved :
  forall (c : Canvas) (rects stored : option (list OcrRect))
         (selectionBox : option SelectionBox)
         (new_elems : option (list SvgElement)) (name : option string),
    history_synced c ->
    history_synced (final (drawOcrRects rects c)) /\
    history_synced (final (drawOcrRectsInSelection selectionBox c)) /\
    history_synced (final (finalizeCreation new_elems name c)) /\
    history_synced (final (storeOcrResults stored c)).
Proof.
  intros c rects stored selectionBox new_elems name Hok.
  rewrite drawOcrRects_after, drawOcrRectsInSelection_after.
  split; [|split; [|split]].
  - now apply history_synced_after_draw.
  - now apply history_synced_after_draw.
  - destruct (finalizeCreation_final new_elems name c)
      as [-> | (elems & _ & _ & ->)]; [exact Hok|].
    now apply history_synced_finalized.
  - exact Hok.
Qed.

(** X14: each stored rectangle is judged on its own: the rectangles
    selected from a concatenation are those selected from each part, in
    order; duplicates are kept; and selecting again from what was selected
    changes nothing. *)
Theorem rectsToDraw_pointwise :
  forall (sel : SelectionBox) (l1 l2 : list OcrRect) (r : OcrRect),
    rectsToDraw sel (l1 ++ l2) = rectsToDraw sel l1 ++ rectsToDraw sel l2 /\
    rectsToDraw sel (rectsToDraw sel l1) = rectsToDraw sel l1 /\
    rectsToDraw sel (r :: r :: l1)
      = (if intersects sel r then [r; r] else []) ++ rectsToDraw sel l1.
Proof.
  intros sel l1 l2 r. rewrite !rectsToDraw_filter.
  split; [apply List.filter_app|]. split; [apply filter_idempotent|].
  simpl. now destruct (intersects sel r).
Qed.

(** X15: drawing in two calls builds the same elements as drawing the
    concatenation in one call (same document, same identifiers), but is
    recorded as two history entries and announced by two events instead of
    one. *)
Theorem drawOcrRects_split :
  forall (c : Canvas) (r1 r2 : list OcrRect),
    document (final (drawOcrRects (Some r2) (final (drawOcrRects (Some r1) c))))
      = document (final (drawOcrRects (Some (r1 ++ r2)) c)) /\
    obj_num (final (drawOcrRects (Some r2) (final (drawOcrRects (Some r1) c))))
      = obj_num (final (drawOcrRects (Some (r1 ++ r2)) c)) /\
    (r1 <> [] -> r2 <> [] ->
     length (undoStack
               (final (drawOcrRects (Some r2) (final (drawOcrRects (Some r1) c)))))
       = S (length (undoStack (final (drawOcrRects (Some (r1 ++ r2)) c)))) /\
     length (events
               (final (drawOcrRects (Some r2) (final (drawOcrRects (Some r1) c)))))
       = S (length (events (final (drawOcrRects (Some (r1 ++ r2)) c))))).
Proof.
  intros c r1 r2. rewrite !drawOcrRects_after. simpl.
  set (n := "Create All Occlusion Masks").
  destruct (after_draw_parts n r1 c) as (Hd1 & Hn1 & _ & _ & _ & Hp1).
  destruct (after_draw_parts n r2 (after_draw n r1 c))
    as (Hd2 & Hn2 & _ & _ & _ & Hp2).
  destruct (after_draw_parts n (r1 ++ r2) c) as (Hd & Hn & _ & _ & _ & Hp).
  split; [|split].
  - rewrite Hd2, Hd1, Hd, (drawnElements_after_draw n), app_assoc. reflexivity.
  - rewrite Hn2, Hn, idBase_after_draw, Hn1.
    destruct r1 as [|a r1], r2 as [|b r2]; simpl;
      rewrite ?app_nil_r, ?length_app; simpl; lia.
  - intros Hne1 Hne2.
    destruct (Hp1 Hne1) as [Hu1 He1]. destruct (Hp2 Hne2) as [Hu2 He2].
    destruct Hp as [Hu He]; [destruct r1; [done | discriminate]|].
    rewrite Hu2, Hu1, Hu, He2, He1, He, !length_app. simpl. lia.
Qed.

(** X16: [drawOcrRectsInSelection] is [drawOcrRects] applied to the
    selected rectangles, up to the name of the action: both leave the same
    document, identifier counter, events and stored sequence, and history
    entries with the same sub-commands. *)
Theorem drawOcrRectsInSelection_as_drawOcrRects :
  forall (c : Canvas) (selectionBox : option SelectionBox),
    document (final (drawOcrRectsInSelection selectionBox c))
      = document (final (drawOcrRects (Some (todoOf selectionBox c)) c)) /\
    obj_num (final (drawOcrRectsInSelection selectionBox c))
      = obj_num (final (drawOcrRects (Some (todoOf selectionBox c)) c)) /\
    events (final (drawOcrRectsInSelection selectionBox c))
      = events (final (drawOcrRects (Some (todoOf selectionBox c)) c)) /\
    storedOcrRects (final (drawOcrRectsInSelection selectionBox c))
      = storedOcrRects (final (drawOcrRects (Some (todoOf selectionBox c)) c)) /\
    stack <$> undoStack (final (drawOcrRectsInSelection selectionBox c))
      = stack <$> undoStack (final (drawOcrRects (Some (todoOf selectionBox c)) c)).
Proof.
  intros c selectionBox.
  rewrite drawOcrRects_after, drawOcrRectsInSelection_after. simpl.
  destruct (todoOf selectionBox c) as [|r rs]; simpl; [done|].
  repeat split. now rewrite !fmap_app.
Qed.

(** X17: [drawOcrRects] and [finalizeCreation] do not read the stored
    sequence: storing a delivery before or after either of them gives the
    same canvas. *)
Theorem storeOcrResults_commutes_with_drawing :
  forall (c : Canvas) (stored rects : option (list OcrRect))
         (new_elems : option (list SvgElement)) (name : option string),
    final (drawOcrRects rects (final (storeOcrResults stored c)))
      = final (storeOcrResults stored (final (drawOcrRects rects c))) /\
    final (finalizeCreation new_elems name (final (storeOcrResults stored c)))
      = final (storeOcrResults stored (final (finalizeCreation new_elems name c))).
Proof.
  intros c stored rects new_elems name. split.
  - rewrite !drawOcrRects_after. simpl.
    destruct (default [] rects); reflexivity.
  - destruct (finalizeCreation_final new_elems name c)
      as [H | (elems & -> & Hne & H)]; rewrite H.
    + destruct (finalizeCreation_final new_elems name
                  (final (storeOcrResults stored c)))
        as [H' | (elems & -> & Hne & H')]; rewrite H'; [reflexivity|].
      rewrite (finalizeCreation_run _ _ _ Hne) in H. unfold finalized in H.
      apply (f_equal (fun p => length (events p.2))) in H. simpl in H.
      rewrite length_app in H. simpl in H. lia.
    + rewrite (finalizeCreation_run _ _ _ Hne). reflexivity.
Qed.

(** X18: the extension keeps no record of what it has drawn: calling
    [drawOcrRectsInSelection] twice with the same box draws the selected
    rectangles twice, as two runs of new elements with the same geometry. *)
Theorem drawOcrRectsInSelection_twice :
  forall (c : Canvas) (sel : SelectionBox),
    exists els1 els2,
      document
        (final (drawOcrRectsInSelection (Some sel)
                  (final (drawOcrRectsInSelection (Some sel) c))))
        = document c ++ els1 ++ els2 /\
      geometry <$> els1 = rectsToDraw sel (storedList c) /\
      geometry <$> els2 = rectsToDraw sel (storedList c).
Proof.
  intros c sel. rewrite !drawOcrRectsInSelection_after.
  set (n := "Create Occlusion Masks in Selection").
  unfold todoOf. rewrite storedList_after_draw.
  set (todo := rectsToDraw sel (storedList c)).
  exists (drawnElements c todo), (drawnElements (after_draw n todo c) todo).
  destruct (after_draw_parts n todo (after_draw n todo c)) as (-> & _).
  destruct (after_draw_parts n todo c) as (-> & _).
  rewrite <- app_assoc. unfold drawnElements.
  rewrite !geometry_rectElements. now repeat split.
Qed.

End Generic.

(** ** Exact integers *)

Section Exact.

#[local] Existing Instance exactZ.

Lemma intersects_true (selectionBox : SelectionBox) (ocrRect : OcrRect) :
  intersects selectionBox ocrRect = true <->
  sel_x selectionBox < r_x ocrRect + r_w ocrRect /\
  sel_x selectionBox + sel_width selectionBox > r_x ocrRect /\
  sel_y selectionBox < r_y ocrRect + r_h ocrRect /\
  sel_y selectionBox + sel_height selectionBox > r_y ocrRect.
Proof.
  rewrite intersects_spec. unfold num_gt. simpl.
  rewrite !Z.ltb_lt. lia.
Qed.

Lemma overlapArea_pos (selectionBox : SelectionBox) (ocrRect : OcrRect) :
  0 < overlapArea selectionBox ocrRect <->
  0 < Z.min (sel_x selectionBox + sel_width selectionBox) (r_x ocrRect + r_w ocrRect)
      - Z.max (sel_x selectionBox) (r_x ocrRect) /\
  0 < Z.min (sel_y selectionBox + sel_height selectionBox) (r_y ocrRect + r_h ocrRect)
      - Z.max (sel_y selectionBox) (r_y ocrRect).
Proof.
  unfold overlapArea.
  set (a := Z.min _ _ - Z.max _ _). set (b := Z.min _ _ - Z.max _ _).
  split.
  - intros H. destruct (Z.max_spec 0 a) as [[? Ea]|[? Ea]];
      destruct (Z.max_spec 0 b) as [[? Eb]|[? Eb]]; rewrite Ea, Eb in H; lia.
  - intros [Ha Hb]. rewrite !Z.max_r by lia. lia.
Qed.

(** *** The operations on small inputs *)

Example finalizeCreation_three :
  finalizeCreation (Some [elemA; elemB; elemC]) None blank =
    (Returned (),
     mkCanvas (Some []) "#FFEBA2" "#2D2D2D" 1 0 []
       [mkBatchCommand "Create Occlusion Masks"
          [InsertElementCommand elemC; InsertElementCommand elemB;
           InsertElementCommand elemA]]
       [mkEvent "changed" [elemA; elemB; elemC]]).
Proof. reflexivity. Qed.

Example drawOcrRects_two :
  drawOcrRects (Some [mkOcrRect 0 0 4 4; mkOcrRect 5 0 4 4]) blank =
    (Returned (),
     mkCanvas (Some []) "#FFEBA2" "#2D2D2D" 1 2 [elemA; elemB]
       [mkBatchCommand "Create All Occlusion Masks"
          [InsertElementCommand elemB; InsertElementCommand elemA]]
       [mkEvent "changed" [elemA; elemB]]).
Proof. reflexivity. Qed.

Example drawOcrRectsInSelection_one_of_two :
  drawOcrRectsInSelection (Some wholeBox) delivered =
    (Returned (),
     mkCanvas (Some [mkOcrRect 10 10 20 20; mkOcrRect 200 200 10 10])
       "#FFEBA2" "#2D2D2D" 1 1
       [rectElement "#FFEBA2" "#2D2D2D" 1 1 (mkOcrRect 10 10 20 20)]
       [mkBatchCommand "Create Occlusion Masks in Selection"
          [InsertElementCommand
             (rectElement "#FFEBA2" "#2D2D2D" 1 1 (mkOcrRect 10 10 20 20))]]
       [mkEvent "changed"
          [rectElement "#FFEBA2" "#2D2D2D" 1 1 (mkOcrRect 10 10 20 20)]]).
Proof. reflexivity. Qed.

Example drawOcrRectsInSelection_none_selected :
  drawOcrRectsInSelection (Some (mkSelectionBox 50 50 10 10)) delivered
    = (Returned (), delivered).
Proof. reflexivity. Qed.

Example drawOcrRectsInSelection_absent_box :
  drawOcrRectsInSelection None delivered = (Thrown "TypeError", delivered) /\
  drawOcrRectsInSelection None blank = (Returned (), blank).
Proof. split; reflexivity. Qed.

Example intersects_point_inside :
  intersects (mkSelectionBox 15 15 0 0) (mkOcrRect 10 10 20 20) = true /\
  overlapArea (mkSelectionBox 15 15 0 0) (mkOcrRect 10 10 20 20) = 0.
Proof. split; reflexivity. Qed.

(** *** The general theorems at concrete inputs *)

Lemma finalizeCreation_reverse_subcommands_witness :
  [elemA; elemB; elemC] <> [] /\
  result (finalizeCreation (Some [elemA; elemB; elemC]) None blank) = Returned () /\
  (exists b,
      undoStack (final (finalizeCreation (Some [elemA; elemB; elemC]) None blank))
        = undoStack blank ++ [b] /\
      stack b = reverse (InsertElementCommand <$> [elemA; elemB; elemC])) /\
  events (final (finalizeCreation (Some [elemA; elemB; elemC]) None blank))
    = events blank ++ [mkEvent "changed" [elemA; elemB; elemC]].
Proof.
  split; [discriminate|].
  apply (finalizeCreation_reverse_subcommands blank [elemA; elemB; elemC] None).
  discriminate.
Defined.

Lemma drawOcrRects_one_element_per_rect_witness :
  [mkOcrRect 10 10 20 20; mkOcrRect 200 200 10 10] <> [] /\
  result (drawOcrRects (Some [mkOcrRect 10 10 20 20; mkOcrRect 200 200 10 10]) blank)
    = Returned () /\
  exists els,
    document (final (drawOcrRects
                       (Some [mkOcrRect 10 10 20 20; mkOcrRect 200 200 10 10]) blank))
      = document blank ++ els /\
    length els = length [mkOcrRect 10 10 20 20; mkOcrRect 200 200 10 10] /\
    geometry <$> els = [mkOcrRect 10 10 20 20; mkOcrRect 200 200 10 10] /\
    events (final (drawOcrRects
                     (Some [mkOcrRect 10 10 20 20; mkOcrRect 200 200 10 10]) blank))
      = events blank ++ [mkEvent "changed" els].
Proof.
  split; [discriminate|].
  apply (drawOcrRects_one_element_per_rect blank
           [mkOcrRect 10 10 20 20; mkOcrRect 200 200 10 10]).
  discriminate.
Defined.

Lemma drawOcrRectsInSelection_elements_and_history_witness :
  rectsToDraw wholeBox [mkOcrRect 10 10 20 20; mkOcrRect 200 200 10 10]
    = [mkOcrRect 10 10 20 20] /\
  exists els b,
    document (final (drawOcrRectsInSelection (Some wholeBox) delivered))
      = document delivered ++ els /\
    length els = 1%nat /\
    geometry <$> els = [mkOcrRect 10 10 20 20] /\
    undoStack (final (drawOcrRectsInSelection (Some wholeBox) delivered))
      = undoStack delivered ++ [b] /\
    text b = "Create Occlusion Masks in Selection" /\
    stack b = reverse (InsertElementCommand <$> els).
Proof.
  split; [reflexivity|].
  destruct (drawOcrRectsInSelection_elements_and_history delivered
              [mkOcrRect 10 10 20 20; mkOcrRect 200 200 10 10] wholeBox)
    as (_ & Hsome & _); [reflexivity | discriminate |].
  apply Hsome. discriminate.
Defined.

Lemma finalizeCreation_pushes_nonempty_batch_witness :
  history_ok blank /\
  history_ok (final (finalizeCreation (Some [elemA; elemB]) None blank)) /\
  exists b,
    undoStack (final (finalizeCreation (Some [elemA; elemB]) None blank))
      = undoStack blank ++ [b] /\
    isEmpty b = false /\ length (stack b) = length [elemA; elemB].
Proof.
  assert (Hok : history_ok blank) by constructor.
  destruct (finalizeCreation_pushes_nonempty_batch blank (Some [elemA; elemB]) None)
    as (_ & Hpush & Hinv).
  split; [exact Hok|]. split; [exact (proj1 (Hinv Hok))|].
  apply (Hpush [elemA; elemB]); [reflexivity | discriminate].
Defined.

Lemma finalizeCreation_batch_name_witness :
  [elemA] <> [] /\
  (exists b,
      undoStack (final (finalizeCreation (Some [elemA]) (Some "Mask it") blank))
        = undoStack blank ++ [b] /\
      text b = "Mask it") /\
  (exists b,
      undoStack (final (finalizeCreation (Some [elemA]) (Some "") blank))
        = undoStack blank ++ [b] /\
      text b = "Create Occlusion Masks").
Proof.
  split; [discriminate|]. split.
  - destruct (finalizeCreation_batch_name blank [elemA] (Some "Mask it"))
      as (b & Hpush & Hgiven & _); [discriminate|].
    exists b. split; [exact Hpush|].
    apply (Hgiven "Mask it"); [reflexivity | discriminate].
  - destruct (finalizeCreation_batch_name blank [elemA] (Some ""))
      as (b & Hpush & _ & Hdflt); [discriminate|].
    exists b. split; [exact Hpush|]. apply Hdflt. now right.
Defined.

Lemma drawOcrRects_history_entry_witness :
  [mkOcrRect 0 0 4 4; mkOcrRect 5 0 4 4] <> [] /\
  exists els,
    document (final (drawOcrRects (Some [mkOcrRect 0 0 4 4; mkOcrRect 5 0 4 4]) blank))
      = document blank ++ els /\
    undoStack (final (drawOcrRects (Some [mkOcrRect 0 0 4 4; mkOcrRect 5 0 4 4]) blank))
      = undoStack blank ++
        [mkBatchCommand "Create All Occlusion Masks"
           (reverse (InsertElementCommand <$> els))].
Proof.
  split; [discriminate|].
  apply (drawOcrRects_history_entry blank [mkOcrRect 0 0 4 4; mkOcrRect 5 0 4 4]).
  discriminate.
Defined.

Lemma drawOcrRectsInSelection_one_event_witness :
  storedOcrRects delivered
    = Some [mkOcrRect 10 10 20 20; mkOcrRect 200 200 10 10] /\
  rectsToDraw wholeBox [mkOcrRect 10 10 20 20; mkOcrRect 200 200 10 10] <> [] /\
  exists els,
    document (final (drawOcrRectsInSelection (Some wholeBox) delivered))
      = document delivered ++ els /\
    geometry <$> els
      = rectsToDraw wholeBox [mkOcrRect 10 10 20 20; mkOcrRect 200 200 10 10] /\
    events (final (drawOcrRectsInSelection (Some wholeBox) delivered))
      = events delivered ++ [mkEvent "changed" els].
Proof.
  split; [reflexivity|]. split; [discriminate|].
  apply (drawOcrRectsInSelection_one_event delivered
           [mkOcrRect 10 10 20 20; mkOcrRect 200 200 10 10] wholeBox);
    [reflexivity | discriminate].
Defined.

Lemma ids_unique_preserved_witness :
  ids_unique blank /\
  ids_unique (final (drawOcrRects (Some [mkOcrRect 0 0 4 4; mkOcrRect 5 0 4 4]) blank)).
Proof.
  assert (Hok : ids_unique blank) by (split; constructor).
  split; [exact Hok|].
  exact (proj1 (ids_unique_preserved blank
                  (Some [mkOcrRect 0 0 4 4; mkOcrRect 5 0 4 4]) None None None None
                  Hok)).
Defined.

Lemma history_synced_preserved_witness :
  history_synced delivered /\
  history_synced (final (drawOcrRectsInSelection (Some wholeBox) delivered)).
Proof.
  assert (Hok : history_synced delivered) by constructor.
  split; [exact Hok|].
  destruct (history_synced_preserved delivered None None (Some wholeBox) None None Hok)
    as (_ & Hsel & _).
  exact Hsel.
Defined.

Lemma drawOcrRects_split_witness :
  [mkOcrRect 0 0 4 4] <> [] /\ [mkOcrRect 5 0 4 4] <> [] /\
  length (undoStack
            (final (drawOcrRects (Some [mkOcrRect 5 0 4 4])
                      (final (drawOcrRects (Some [mkOcrRect 0 0 4 4]) blank)))))
    = S (length (undoStack
                   (final (drawOcrRects
                             (Some ([mkOcrRect 0 0 4 4] ++ [mkOcrRect 5 0 4 4]))
                             blank)))).
Proof.
  assert (H1 : [mkOcrRect 0 0 4 4] <> []) by discriminate.
  assert (H2 : [mkOcrRect 5 0 4 4] <> []) by discriminate.
  split; [exact H1|]. split; [exact H2|].
  destruct (drawOcrRects_split blank [mkOcrRect 0 0 4 4] [mkOcrRect 5 0 4 4])
    as (_ & _ & Hlen).
  exact (proj1 (Hlen H1 H2)).
Defined.

(** *** Properties of the test in exact arithmetic *)





End Exact.

(** ** Doubles *)

Section Double.

#[local] Existing Instance binary64.

Lemma digits2_pos_bounds (m : positive) :
  2 ^ (Z.pos (digits2_pos m) - 1) <= Z.pos m < 2 ^ Z.pos (digits2_pos m).
Proof.
  induction m as [m IH | m IH |]; simpl digits2_pos.
  - rewrite Pos2Z.inj_succ.
    replace (Z.succ (Z.pos (digits2_pos m)) - 1)
      with (Z.succ (Z.pos (digits2_pos m) - 1)) by lia.
    rewrite !Z.pow_succ_r by lia. lia.
  - rewrite Pos2Z.inj_succ.
    replace (Z.succ (Z.pos (digits2_pos m)) - 1)
      with (Z.succ (Z.pos (digits2_pos m) - 1)) by lia.
    rewrite !Z.pow_succ_r by lia. lia.
  - simpl. lia.
Qed.

(** A finite double has an exponent of at least [-1074] and a mantissa
    below [2^53]; above the least exponent the mantissa has its 53 bits. *)
Lemma finite64_inv (s : bool) (m : positive) (e : Z) :
  finite64 (S754_finite s m e) = true ->
  -1074 <= e /\ Z.pos m < 2 ^ 53 /\ (-1074 < e -> 2 ^ 52 <= Z.pos m).
Proof.
  unfold finite64, valid_binary, bounded, canonical_mantissa, fexp, emin.
  intros H. apply andb_true_iff in H as [Hc _]. apply Z.eqb_eq in Hc.
  pose proof (digits2_pos_bounds m) as [Hlo Hhi].
  set (d := Z.pos (digits2_pos m)) in *.
  assert (Hd : d <= 53) by lia.
  split; [lia|]. split.
  - eapply Z.lt_le_trans; [exact Hhi|]. apply Z.pow_le_mono_r; lia.
  - intros He. assert (d = 53) as Hd53 by lia. rewrite Hd53 in Hlo. exact Hlo.
Qed.

Lemma scaled_lt_exp (m1 m2 : positive) (e1 e2 : Z) :
  finite64 (S754_finite false m1 e1) = true ->
  finite64 (S754_finite false m2 e2) = true ->
  e1 < e2 ->
  Z.pos m1 * 2 ^ (e1 + 1074) < Z.pos m2 * 2 ^ (e2 + 1074).
Proof.
  intros H1 H2 He.
  apply finite64_inv in H1 as (Hlo1 & Hm1 & _).
  apply finite64_inv in H2 as (Hlo2 & _ & Hm2).
  specialize (Hm2 ltac:(lia)).
  replace (e2 + 1074) with ((e1 + 1074) + (e2 - e1)) by lia.
  rewrite (Z.pow_add_r 2 (e1 + 1074) (e2 - e1)) by lia.
  assert (HP : 0 < 2 ^ (e1 + 1074)) by (apply Z.pow_pos_nonneg; lia).
  assert (HQ : 2 ^ 1 <= 2 ^ (e2 - e1)) by (apply Z.pow_le_mono_r; lia).
  change (2 ^ 1) with 2 in HQ. change (2 ^ 53) with (2 * 2 ^ 52) in Hm1.
  set (P := 2 ^ (e1 + 1074)) in *. set (Q := 2 ^ (e2 - e1)) in *.
  set (T := 2 ^ 52) in *.
  assert (Z.pos m1 * P < 2 * T * P) by nia.
  assert (T * P <= Z.pos m2 * P) by nia.
  assert (0 < Z.pos m2 * P) by nia.
  assert (Z.pos m2 * P * 2 <= Z.pos m2 * P * Q) by nia.
  lia.
Qed.

(** On finite doubles [<] compares the exact values. *)
Lemma SFltb_scaled (x y : spec_float) :
  finite64 x = true -> finite64 y = true ->
  (SFltb x y = true <-> scaled x < scaled y).
Proof.
  intros Hx Hy.
  destruct x as [sx | sx | | sx mx ex], y as [sy | sy | | sy my ey];
    try discriminate; unfold SFltb; simpl SFcompare.
  - simpl. split; [discriminate | lia].
  - pose proof (finite64_inv _ _ _ Hy) as (Hlo & _).
    assert (0 < 2 ^ (ey + 1074)) by (apply Z.pow_pos_nonneg; lia).
    destruct sy; simpl; split; try discriminate; try nia; auto.
  - pose proof (finite64_inv _ _ _ Hx) as (Hlo & _).
    assert (0 < 2 ^ (ex + 1074)) by (apply Z.pow_pos_nonneg; lia).
    destruct sx; simpl; split; try discriminate; try nia; auto.
  - pose proof (finite64_inv _ _ _ Hx) as (Hlox & _).
    pose proof (finite64_inv _ _ _ Hy) as (Hloy & _).
    assert (HPx : 0 < 2 ^ (ex + 1074)) by (apply Z.pow_pos_nonneg; lia).
    assert (HPy : 0 < 2 ^ (ey + 1074)) by (apply Z.pow_pos_nonneg; lia).
    assert (Hxy : ex < ey ->
              Z.pos mx * 2 ^ (ex + 1074) < Z.pos my * 2 ^ (ey + 1074))
      by (intros; now apply scaled_lt_exp).
    assert (Hyx : ey < ex ->
              Z.pos my * 2 ^ (ey + 1074) < Z.pos mx * 2 ^ (ex + 1074))
      by (intros; now apply scaled_lt_exp).
    fold (Pos.compare mx my).
    destruct sx, sy; simpl scaled; simpl cond_Zopp.
    + destruct (Z.compare_spec ex ey) as [-> | Hlt | Hgt].
      * rewrite Pos2Z.inj_compare.
        destruct (Z.compare_spec (Z.pos mx) (Z.pos my)); simpl;
          split; try discriminate; try nia; auto.
      * specialize (Hxy Hlt). split; [discriminate | lia].
      * specialize (Hyx Hgt). split; [lia | reflexivity].
    + split; [nia | reflexivity].
    + split; [discriminate | nia].
    + destruct (Z.compare_spec ex ey) as [-> | Hlt | Hgt].
      * rewrite Pos2Z.inj_compare.
        destruct (Z.compare_spec (Z.pos mx) (Z.pos my)); simpl;
          split; try discriminate; try nia; auto.
      * specialize (Hxy Hlt). split; [lia | reflexivity].
      * specialize (Hyx Hgt). split; [discriminate | lia].
Qed.

Lemma SFcompare_antisym (x y : spec_float) :
  SFcompare y x = option_map CompOpp (SFcompare x y).
Proof.
  destruct x as [[] | [] | | [] mx ex], y as [[] | [] | | [] my ey];
    simpl; try reflexivity;
    rewrite (Z.compare_antisym ex ey); destruct (ex ?= ey); simpl;
    try reflexivity; fold (Pos.compare mx my); fold (Pos.compare my mx);
    rewrite (Pos.compare_antisym mx my); now destruct (mx ?= my)%positive.
Qed.

(** Two doubles that are equal are not below one another. *)
Lemma SFeqb_not_ltb (x y : spec_float) :
  SFeqb x y = true -> SFltb x y = false /\ SFltb y x = false.
Proof.
  unfold SFeqb, SFltb. rewrite (SFcompare_antisym x y).
  destruct (SFcompare x y) as [[]|]; simpl; intros H;
    try discriminate; now split.
Qed.

Lemma edge_contact_not_selected (s : SelectionBox) (r : OcrRect) :
  edge_contact s r -> intersects s r = false.
Proof.
  intros Hc. apply not_true_is_false. intros Hi.
  apply intersects_spec in Hi as (H1 & H2 & H3 & H4).
  unfold num_gt, edge_contact in *. cbn [num_lt num_add binary64] in *.
  destruct Hc as [Hc | [Hc | [Hc | Hc]]];
    apply SFeqb_not_ltb in Hc as [Hxy Hyx]; congruence.
Qed.

(** When no corner sum is rounded, the code's verdict on doubles is the
    verdict of exact arithmetic on the values the doubles denote. *)
Lemma intersects_exact (s : SelectionBox) (r : OcrRect) :
  exact_corners s r ->
  intersects s r = intersects (N := exactZ) (exactBox s) (exactRect r).
Proof.
  intros ((Fsx & Fsy & Fsw & Fsh & Frx & Fry & Frw & Frh) &
          (Fs1 & Es1) & (Fs2 & Es2) & (Fr1 & Er1) & (Fr2 & Er2)).
  apply eq_true_iff_eq. rewrite intersects_spec, intersects_true.
  unfold num_gt. cbn [num_lt num_add binary64] in *.
  rewrite !SFltb_scaled by assumption.
  rewrite Es1, Es2, Er1, Er2. simpl. lia.
Qed.

(** *** Integers as doubles *)

Lemma digits2_pos_shift (q p : positive) :
  Z.pos (digits2_pos (Pos.iter xO q p)) = Z.pos (digits2_pos q) + Z.pos p.
Proof.
  induction p as [|p IH] using Pos.peano_ind.
  - simpl. lia.
  - rewrite Pos.iter_succ. simpl digits2_pos. lia.
Qed.

Lemma pos_shift_value (q p : positive) :
  Z.pos (Pos.iter xO q p) = Z.pos q * 2 ^ Z.pos p.
Proof.
  induction p as [|p IH] using Pos.peano_ind.
  - simpl. lia.
  - rewrite Pos.iter_succ, Pos2Z.inj_succ, Z.pow_succ_r by lia.
    rewrite Pos2Z.inj_xO, IH. lia.
Qed.

Lemma iter_pos_iter {A} (f : A -> A) (p : positive) (x : A) :
  iter_pos f p x = Pos.iter f x p.
Proof.
  revert x. induction p as [p IH | p IH |]; intros x; simpl.
  - rewrite !IH. rewrite <- !Pos.iter_swap. reflexivity.
  - now rewrite !IH.
  - reflexivity.
Qed.

Lemma shr_exact (q p : positive) :
  iter_pos shr_1 p (Build_shr_record (Z.pos (Pos.iter xO q p)) false false)
    = Build_shr_record (Z.pos q) false false.
Proof.
  rewrite iter_pos_iter.
  induction p as [|p IH] using Pos.peano_ind.
  - reflexivity.
  - rewrite (Pos.iter_succ p _ xO), (Pos.iter_succ p _ shr_1).
    rewrite <- Pos.iter_swap. exact IH.
Qed.

Lemma shifted_value (q : positive) (k : Z) :
  0 <= k -> Z.pos (shifted q k) = Z.pos q * 2 ^ k.
Proof.
  destruct k as [|p|p]; simpl shifted; intros Hk; [simpl; lia | | lia].
  apply pos_shift_value.
Qed.

Lemma shifted_digits (q : positive) (k : Z) :
  0 <= k -> Z.pos (digits2_pos (shifted q k)) = Z.pos (digits2_pos q) + k.
Proof.
  destruct k as [|p|p]; simpl shifted; intros Hk; [lia | | lia].
  apply digits2_pos_shift.
Qed.

Lemma shifted_shifted (q : positive) (j k : Z) :
  0 <= j -> 0 <= k -> shifted (shifted q j) k = shifted q (j + k).
Proof.
  intros Hj Hk. apply Pos2Z.inj.
  rewrite !shifted_value by lia. rewrite Z.pow_add_r by lia. lia.
Qed.

Lemma shl_align_shifted (m : positive) (e e' : Z) :
  e' <= e -> shl_align m e e' = (shifted m (e - e'), if e' <? e then e' else e).
Proof.
  intros He. unfold shl_align.
  destruct (Z.ltb_spec e' e) as [Hlt | Hge].
  - destruct (e' - e) as [|p|p] eqn:Hd; try lia.
    replace (e - e') with (Z.pos p) by lia. reflexivity.
  - replace e' with e by lia. rewrite Z.sub_diag. reflexivity.
Qed.

(** A mantissa of 53 bits followed by [n] zeros rounds to itself. *)
Lemma binary_round_aux_exact (sx : bool) (m1 : positive) (e1 n : Z) :
  Z.pos (digits2_pos m1) = 53 -> 0 <= n -> -1074 <= e1 <= 971 ->
  binary_round_aux 53 1024 sx (Z.pos (shifted m1 n)) (e1 - n) loc_Exact
    = S754_finite sx m1 e1.
Proof.
  intros Hd Hn He.
  assert (Hf : fexp 53 1024 (53 + e1) = e1) by (unfold fexp, emin; lia).
  unfold binary_round_aux, shr_fexp. simpl Zdigits2.
  rewrite shifted_digits, Hd by lia.
  replace (53 + n + (e1 - n)) with (53 + e1) by lia. rewrite Hf.
  replace (e1 - (e1 - n)) with n by lia.
  assert (Hshr : shr (shr_record_of_loc (Z.pos (shifted m1 n)) loc_Exact) (e1 - n) n
                 = (Build_shr_record (Z.pos m1) false false, e1)).
  { destruct n as [|p|p]; [| |lia].
    - simpl. f_equal. lia.
    - simpl shifted. unfold shr. simpl shr_record_of_loc. rewrite shr_exact.
      f_equal. lia. }
  rewrite Hshr. simpl shr_m. simpl loc_of_shr_record. simpl round_nearest_even.
  simpl Zdigits2. rewrite Hd, Hf, Z.sub_diag. simpl.
  destruct (Z.leb_spec e1 (1024 - 53)); [reflexivity | lia].
Qed.

(** Rounding a mantissa of at most 53 bits followed by [k] zeros. *)
Lemma binary_round_short (sx : bool) (q : positive) (k : Z) :
  0 <= k <= 1000 ->
  Z.pos (digits2_pos q) <= 53 ->
  binary_round 53 1024 sx (shifted q k) (- k)
    = S754_finite sx (shifted q (53 - Z.pos (digits2_pos q)))
        (Z.pos (digits2_pos q) - 53).
Proof.
  intros Hk Hd. set (d := Z.pos (digits2_pos q)) in *.
  assert (Hd1 : 1 <= d) by (unfold d; lia).
  unfold binary_round.
  rewrite shifted_digits by lia. fold d.
  replace (d + k + - k) with d by lia.
  assert (Hfexp : fexp 53 1024 d = d - 53) by (unfold fexp, emin; lia).
  rewrite Hfexp.
  assert (Hd53 : Z.pos (digits2_pos (shifted q (53 - d))) = 53)
    by (rewrite shifted_digits by lia; fold d; lia).
  destruct (Z.le_gt_cases (d - 53) (- k)) as [Hle | Hgt].
  - rewrite shl_align_shifted by lia.
    rewrite shifted_shifted by lia.
    replace (k + (- k - (d - 53))) with (53 - d) by lia.
    destruct (Z.ltb_spec (d - 53) (- k)) as [Hlt | Hge].
    + replace (shifted q (53 - d)) with (shifted (shifted q (53 - d)) 0)
        at 1 by reflexivity.
      replace (d - 53) with (d - 53 - 0) at 1 by lia.
      apply binary_round_aux_exact; lia.
    + replace (shifted q (53 - d)) with (shifted (shifted q (53 - d)) 0)
        at 1 by reflexivity.
      replace (- k) with (d - 53 - 0) by lia.
      apply binary_round_aux_exact; lia.
  - unfold shl_align. destruct (d - 53 - - k) as [|p|p] eqn:Hp; try lia.
    replace (shifted q k) with (shifted (shifted q (53 - d)) (Z.pos p)).
    2:{ rewrite shifted_shifted by lia. f_equal. lia. }
    replace (- k) with (d - 53 - Z.pos p) by lia.
    apply binary_round_aux_exact; lia.
Qed.

Lemma digits2_pos_le_53 (q : positive) :
  Z.pos q < 2 ^ 53 -> Z.pos (digits2_pos q) <= 53.
Proof.
  intros Hq. pose proof (digits2_pos_bounds q) as [Hlo _].
  destruct (Z.le_gt_cases (Z.pos (digits2_pos q)) 53) as [H | H]; [exact H|].
  assert (2 ^ 53 <= 2 ^ (Z.pos (digits2_pos q) - 1))
    by (apply Z.pow_le_mono_r; lia).
  lia.
Qed.

(** The double a short mantissa rounds to is finite and has its value. *)
Lemma short_double (sx : bool) (q : positive) :
  Z.pos (digits2_pos q) <= 53 ->
  finite64 (S754_finite sx (shifted q (53 - Z.pos (digits2_pos q)))
              (Z.pos (digits2_pos q) - 53)) = true /\
  scaled (S754_finite sx (shifted q (53 - Z.pos (digits2_pos q)))
            (Z.pos (digits2_pos q) - 53))
    = cond_Zopp sx (Z.pos q) * 2 ^ 1074.
Proof.
  intros Hd. set (d := Z.pos (digits2_pos q)) in *.
  assert (Hd1 : 1 <= d) by (unfold d; lia).
  split.
  - unfold finite64, valid_binary, bounded, canonical_mantissa.
    rewrite shifted_digits by lia. fold d.
    apply andb_true_iff. split.
    + apply Z.eqb_eq. unfold fexp, emin. lia.
    + apply Z.leb_le. lia.
  - unfold scaled. rewrite shifted_value by lia.
    replace (2 ^ 1074) with (2 ^ (53 - d) * 2 ^ (d - 53 + 1074))
      by (rewrite <- Z.pow_add_r by lia; f_equal; lia).
    destruct sx; simpl cond_Zopp; lia.
Qed.

Lemma ofZ_pos (sx : bool) (q : positive) :
  Z.pos q < 2 ^ 53 ->
  ofZ (cond_Zopp sx (Z.pos q))
    = S754_finite sx (shifted q (53 - Z.pos (digits2_pos q)))
        (Z.pos (digits2_pos q) - 53).
Proof.
  intros Hq. unfold ofZ.
  pose proof (binary_round_short sx q 0) as H. simpl shifted in H.
  destruct sx; simpl; apply H; try lia; now apply digits2_pos_le_53.
Qed.

(** Integers below [2^53] in size are doubles. *)
Lemma ofZ_exact (a : Z) :
  Z.abs a < 2 ^ 53 ->
  finite64 (ofZ a) = true /\ scaled (ofZ a) = a * 2 ^ 1074.
Proof.
  intros Ha. destruct a as [|q|q].
  - split; reflexivity.
  - pose proof (ofZ_pos false q) as H. simpl cond_Zopp in H.
    rewrite H by lia.
    apply (short_double false q). apply digits2_pos_le_53. lia.
  - pose proof (ofZ_pos true q) as H. simpl cond_Zopp in H.
    change (- Z.pos q) with (Z.neg q) in H. rewrite H by lia.
    apply (short_double true q). apply digits2_pos_le_53. lia.
Qed.

Lemma add_exact_finite (sa sb : bool) (qa qb : positive) :
  Z.pos qa < 2 ^ 52 -> Z.pos qb < 2 ^ 52 ->
  finite64 (SFadd 53 1024 (ofZ (cond_Zopp sa (Z.pos qa)))
                          (ofZ (cond_Zopp sb (Z.pos qb)))) = true /\
  scaled (SFadd 53 1024 (ofZ (cond_Zopp sa (Z.pos qa)))
                        (ofZ (cond_Zopp sb (Z.pos qb))))
    = (cond_Zopp sa (Z.pos qa) + cond_Zopp sb (Z.pos qb)) * 2 ^ 1074.
Proof.
  intros Ha Hb.
  assert (H53 : 2 ^ 53 = 2 * 2 ^ 52) by reflexivity.
  rewrite !ofZ_pos by lia.
  pose proof (digits2_pos_le_53 qa ltac:(lia)) as Hda.
  pose proof (digits2_pos_le_53 qb ltac:(lia)) as Hdb.
  set (da := Z.pos (digits2_pos qa)) in *.
  set (db := Z.pos (digits2_pos qb)) in *.
  assert (Hda1 : 1 <= da) by (unfold da; lia).
  assert (Hdb1 : 1 <= db) by (unfold db; lia).
  unfold SFadd.
  set (ez := Z.min (da - 53) (db - 53)).
  rewrite !shl_align_shifted by (unfold ez; lia).
  cbn [fst]. rewrite !shifted_shifted by (unfold ez; lia).
  replace (53 - da + (da - 53 - ez)) with (- ez) by lia.
  replace (53 - db + (db - 53 - ez)) with (- ez) by lia.
  set (k := - ez). assert (Hk : 0 <= k <= 52) by (unfold k, ez; lia).
  replace ez with (- k) by (unfold k; lia).
  set (A := cond_Zopp sa (Z.pos qa)). set (B := cond_Zopp sb (Z.pos qb)).
  assert (HA : Z.abs A < 2 ^ 52) by (unfold A; destruct sa; simpl; lia).
  assert (HB : Z.abs B < 2 ^ 52) by (unfold B; destruct sb; simpl; lia).
  assert (Hsum : cond_Zopp sa (Z.pos (shifted qa k))
                 + cond_Zopp sb (Z.pos (shifted qb k)) = (A + B) * 2 ^ k).
  { rewrite !shifted_value by lia. unfold A, B.
    destruct sa, sb; simpl cond_Zopp; lia. }
  rewrite Hsum.
  assert (Hpow : 0 < 2 ^ k) by (apply Z.pow_pos_nonneg; lia).
  unfold binary_normalize.
  destruct ((A + B) * 2 ^ k) as [|p|p] eqn:Hp.
  - split; [reflexivity|]. simpl scaled. nia.
  - assert (HAB : 0 < A + B) by nia.
    assert (Hq : p = shifted (Z.to_pos (A + B)) k).
    { apply Pos2Z.inj. rewrite shifted_value by lia.
      rewrite Z2Pos.id by lia. lia. }
    rewrite Hq, binary_round_short by
      (try lia; apply digits2_pos_le_53; rewrite Z2Pos.id by lia; lia).
    destruct (short_double false (Z.to_pos (A + B))) as [Hf Hs];
      [apply digits2_pos_le_53; rewrite Z2Pos.id by lia; lia|].
    split; [exact Hf|]. rewrite Hs. simpl cond_Zopp.
    rewrite Z2Pos.id by lia. reflexivity.
  - assert (HAB : A + B < 0) by nia.
    assert (Hq : p = shifted (Z.to_pos (- (A + B))) k).
    { apply Pos2Z.inj. rewrite shifted_value by lia.
      rewrite Z2Pos.id by lia. lia. }
    rewrite Hq, binary_round_short by
      (try lia; apply digits2_pos_le_53; rewrite Z2Pos.id by lia; lia).
    destruct (short_double true (Z.to_pos (- (A + B)))) as [Hf Hs];
      [apply digits2_pos_le_53; rewrite Z2Pos.id by lia; lia|].
    split; [exact Hf|]. rewrite Hs. simpl cond_Zopp.
    rewrite Z2Pos.id by lia. lia.
Qed.

Lemma add_zero_l (y : spec_float) :
  finite64 y = true -> y <> S754_zero true ->
  finite64 (SFadd 53 1024 (S754_zero false) y) = true /\
  scaled (SFadd 53 1024 (S754_zero false) y) = scaled y.
Proof. destruct y as [[]| | |]; try discriminate; try congruence; now intros. Qed.

Lemma add_zero_r (x : spec_float) :
  finite64 x = true -> x <> S754_zero true ->
  finite64 (SFadd 53 1024 x (S754_zero false)) = true /\
  scaled (SFadd 53 1024 x (S754_zero false)) = scaled x.
Proof. destruct x as [[]| | |]; try discriminate; try congruence; now intros. Qed.

Lemma ofZ_not_neg_zero (a : Z) : Z.abs a < 2 ^ 53 -> ofZ a <> S754_zero true.
Proof.
  intros Ha. destruct a as [|q|q]; [discriminate | |].
  - pose proof (ofZ_pos false q) as H. simpl cond_Zopp in H.
    rewrite H by lia. discriminate.
  - pose proof (ofZ_pos true q) as H. simpl cond_Zopp in H.
    change (- Z.pos q) with (Z.neg q) in H. rewrite H by lia. discriminate.
Qed.

(** The sum of two integers below [2^52] in size is computed exactly. *)
Lemma add_exact (a b : Z) :
  Z.abs a < 2 ^ 52 -> Z.abs b < 2 ^ 52 ->
  finite64 (SFadd 53 1024 (ofZ a) (ofZ b)) = true /\
  scaled (SFadd 53 1024 (ofZ a) (ofZ b)) = (a + b) * 2 ^ 1074.
Proof.
  intros Ha Hb.
  assert (H53 : 2 ^ 53 = 2 * 2 ^ 52) by reflexivity.
  destruct (ofZ_exact a ltac:(lia)) as [Fa Sa].
  destruct (ofZ_exact b ltac:(lia)) as [Fb Sb].
  destruct (Z.eq_dec a 0) as [-> | Hna].
  - change (ofZ 0) with (S754_zero false).
    destruct (add_zero_l (ofZ b) Fb (ofZ_not_neg_zero b ltac:(lia))) as [-> ->].
    split; [reflexivity|]. rewrite Sb. lia.
  - destruct (Z.eq_dec b 0) as [-> | Hnb].
    + change (ofZ 0) with (S754_zero false).
      destruct (add_zero_r (ofZ a) Fa (ofZ_not_neg_zero a ltac:(lia))) as [-> ->].
      split; [reflexivity|]. rewrite Sa. lia.
    + destruct a as [|qa|qa], b as [|qb|qb]; try congruence.
      * apply (add_exact_finite false false qa qb); lia.
      * apply (add_exact_finite false true qa qb); lia.
      * apply (add_exact_finite true false qa qb); lia.
      * apply (add_exact_finite true true qa qb); lia.
Qed.

(** Small integers give boxes whose corners the code computes exactly. *)
Lemma small_exact_corners (s : @SelectionBox exactZ) (r : @OcrRect exactZ) :
  smallBox s -> smallRect r -> exact_corners (doubleBox s) (doubleRect r).
Proof.
  intros (Hsx & Hsy & Hsw & Hsh) (Hrx & Hry & Hrw & Hrh).
  unfold small in *.
  assert (H53 : 2 ^ 53 = 2 * 2 ^ 52) by reflexivity.
  assert (Hone : forall a, Z.abs a < 2 ^ 52 -> finite64 (ofZ a) = true)
    by (intros a Ha; apply ofZ_exact; lia).
  assert (Htwo : forall a b, Z.abs a < 2 ^ 52 -> Z.abs b < 2 ^ 52 ->
                             exact_sum (ofZ a) (ofZ b)).
  { intros a b Ha Hb. unfold exact_sum. cbn [num_add binary64].
    destruct (add_exact a b Ha Hb) as [Hf Hs]. split; [exact Hf|].
    rewrite Hs.
    rewrite (proj2 (ofZ_exact a ltac:(lia))), (proj2 (ofZ_exact b ltac:(lia))).
    lia. }
  unfold exact_corners, finite_corners, doubleBox, doubleRect.
  cbn [sel_x sel_y sel_width sel_height r_x r_y r_w r_h].
  split; [repeat apply conj; auto|].
  split; [now apply Htwo|]. split; [now apply Htwo|]. split; now apply Htwo.
Qed.

(** On small integers the code's test on doubles is the exact test. *)
Lemma intersects_small (s : @SelectionBox exactZ) (r : @OcrRect exactZ) :
  smallBox s -> smallRect r ->
  intersects (doubleBox s) (doubleRect r) = intersects s r.
Proof.
  intros Hs Hr. rewrite (intersects_exact _ _ (small_exact_corners s r Hs Hr)).
  destruct Hs as (Hsx & Hsy & Hsw & Hsh), Hr as (Hrx & Hry & Hrw & Hrh).
  unfold small in *.
  assert (H53 : 2 ^ 53 = 2 * 2 ^ 52) by reflexivity.
  apply eq_true_iff_eq. rewrite !intersects_true.
  unfold exactBox, exactRect, doubleBox, doubleRect. simpl.
  rewrite !(fun a H => proj2 (ofZ_exact a H)) by lia.
  assert (HU : 0 < 2 ^ 1074) by (apply Z.pow_pos_nonneg; lia).
  set (U := 2 ^ 1074) in *. nia.
Qed.

Lemma rectsToDraw_small (s : @SelectionBox exactZ) (rects : list (@OcrRect exactZ)) :
  smallBox s -> Forall smallRect rects ->
  rectsToDraw (doubleBox s) (doubleRect <$> rects)
    = doubleRect <$> rectsToDraw s rects.
Proof.
  intros Hs Hrects. rewrite !rectsToDraw_filter.
  induction Hrects as [|r rest Hr _ IH]; [reflexivity|].
  rewrite fmap_cons. cbn [List.filter].
  rewrite (intersects_small s r Hs Hr), IH.
  now destruct (intersects s r).
Qed.

(** *** The test on doubles at small inputs *)

(** Next to [2^53] the sum [2^53 + 1] is rounded back to [2^53]: the box
    is as wide as nothing for the code, and the rectangle it overlaps by
    an area of 5 is not selected. *)
Example intersects_far :
  num_add (ofZ 9007199254740992) (ofZ 1) = ofZ 9007199254740992 /\
  intersects farBox farRect = false.
Proof. split; reflexivity. Qed.

(** The same with fractions: [0.4 + 0.6000000000000001] is rounded to
    [1], so a box from 0.4 with that width does not reach past a rectangle
    that starts at 1. *)
Example intersects_fraction :
  num_add (S754_finite false 7205759403792794 (-54))
          (S754_finite false 5404319552844596 (-53)) = ofZ 1 /\
  scaled (ofZ 1)
    < scaled (S754_finite false 7205759403792794 (-54))
      + scaled (S754_finite false 5404319552844596 (-53)) /\
  intersects
    (mkSelectionBox (S754_finite false 7205759403792794 (-54)) (ofZ 0)
                    (S754_finite false 5404319552844596 (-53)) (ofZ 10))
    (mkOcrRect (ofZ 1) (ofZ 0) (ofZ 5) (ofZ 5)) = false.
Proof. repeat split; vm_compute; reflexivity. Qed.

Example intersects_NaN :
  intersects (mkSelectionBox S754_nan (ofZ 0) (ofZ 10) (ofZ 10)) nearRect
    = false.
Proof. reflexivity. Qed.

End Double.

(** ** The selection test, over the models of numbers *)

(** C1, as the code has it. Whatever the numbers are,
    [drawOcrRectsInSelection] draws exactly the stored rectangles that pass
    the test, in their order, and a rectangle passes if and only if
    [selX1 < rectX1 + w], [selX1 + width > rectX1], [selY1 < rectY1 + h] and
    [selY1 + height > rectY1] all hold, the sums and the comparisons being
    those of the numbers. On doubles: a rectangle one of whose edges, as
    computed, equals the opposite edge of the box is not selected; and when
    the four corner sums are computed without rounding, the test is the
    test on the exact values, so that a rectangle whose edge lies on the
    opposite edge of the box is not selected and one that shares a positive
    area with the box is; no corner sum is rounded when the coordinates are
    integers below [2^52] in size, for which the test on doubles is the
    test on the integers. In exact arithmetic the same holds of every box
    and rectangle, and for boxes of positive size selection is the same as
    sharing a positive area. *)
Theorem drawOcrRectsInSelection_selects_strict_overlap :
  (forall (N : Number) (c : Canvas) (sel : SelectionBox),
      (exists els,
          document (final (drawOcrRectsInSelection (Some sel) c))
            = document c ++ els /\
          geometry <$> els = rectsToDraw sel (storedList c)) /\
      (forall rects, rectsToDraw sel rects = List.filter (intersects sel) rects) /\
      (forall rects r,
          In r (rectsToDraw sel rects) <->
          In r rects /\
          (num_lt (sel_x sel) (num_add (r_x r) (r_w r)) = true /\
           num_gt (num_add (sel_x sel) (sel_width sel)) (r_x r) = true /\
           num_lt (sel_y sel) (num_add (r_y r) (r_h r)) = true /\
           num_gt (num_add (sel_y sel) (sel_height sel)) (r_y r) = true))) /\
  (forall (sel : @SelectionBox binary64) (r : @OcrRect binary64),
      (edge_contact sel r -> intersects sel r = false) /\
      (exact_corners sel r ->
       (intersects sel r = true <->
        scaled (sel_x sel) < scaled (r_x r) + scaled (r_w r) /\
        scaled (sel_x sel) + scaled (sel_width sel) > scaled (r_x r) /\
        scaled (sel_y sel) < scaled (r_y r) + scaled (r_h r) /\
        scaled (sel_y sel) + scaled (sel_height sel) > scaled (r_y r)) /\
       (touches (exactBox sel) (exactRect r) -> intersects sel r = false) /\
       (0 < overlapArea (exactBox sel) (exactRect r) ->
        intersects sel r = true))) /\
  (forall (sel : @SelectionBox exactZ) (r : @OcrRect exactZ),
      smallBox sel -> smallRect r ->
      exact_corners (doubleBox sel) (doubleRect r) /\
      intersects (doubleBox sel) (doubleRect r) = intersects sel r /\
      (touches sel r -> intersects (doubleBox sel) (doubleRect r) = false) /\
      (0 < overlapArea sel r ->
       intersects (doubleBox sel) (doubleRect r) = true)) /\
  (forall (sel : @SelectionBox exactZ) (r : @OcrRect exactZ),
      (intersects sel r = true <->
       sel_x sel < r_x r + r_w r /\ sel_x sel + sel_width sel > r_x r /\
       sel_y sel < r_y r + r_h r /\ sel_y sel + sel_height sel > r_y r) /\
      (touches sel r -> intersects sel r = false) /\
      (0 < overlapArea sel r -> intersects sel r = true) /\
      (0 < sel_width sel -> 0 < sel_height sel -> 0 < r_w r -> 0 < r_h r ->
       (intersects sel r = true <-> 0 < overlapArea sel r))).
Proof.
  assert (Hexact : forall (sel : @SelectionBox exactZ) (r : @OcrRect exactZ),
    (touches sel r -> intersects sel r = false) /\
    (0 < overlapArea sel r -> intersects sel r = true) /\
    (0 < sel_width sel -> 0 < sel_height sel -> 0 < r_w r -> 0 < r_h r ->
     (intersects sel r = true <-> 0 < overlapArea sel r))).
  { intros sel r. split; [|split].
    - intros Ht. apply not_true_is_false. intros Hi.
      apply intersects_true in Hi. unfold touches in Ht. lia.
    - intros Ha. apply overlapArea_pos in Ha. apply intersects_true. lia.
    - intros Hw Hh Hrw Hrh. rewrite intersects_true, overlapArea_pos. lia. }
  split; [|split; [|split]].
  - intros N c sel. split; [apply drawOcrRectsInSelection_draws|].
    split; [apply rectsToDraw_filter|].
    intros rects r. rewrite rectsToDraw_filter, filter_In, intersects_spec.
    tauto.
  - intros sel r. split; [apply edge_contact_not_selected|].
    intros Hex. rewrite (intersects_exact sel r Hex).
    destruct (Hexact (exactBox sel) (exactRect r)) as (Ht & Ha & _).
    split; [|split; [exact Ht | exact Ha]].
    rewrite intersects_true. reflexivity.
  - intros sel r Hs Hr.
    split; [now apply small_exact_corners|].
    rewrite (intersects_small sel r Hs Hr).
    destruct (Hexact sel r) as (Ht & Ha & _). now repeat split.
  - intros sel r. split; [apply intersects_true | apply Hexact].
Qed.

Lemma drawOcrRectsInSelection_selects_strict_overlap_witness :
  (edge_contact tenBox edgeRect /\ intersects tenBox edgeRect = false) /\
  (exact_corners tenBox nearRect /\
   0 < overlapArea (exactBox tenBox) (exactRect nearRect) /\
   intersects tenBox nearRect = true) /\
  (smallBox wholeBox /\ smallRect (mkOcrRect (N := exactZ) 10 10 20 20) /\
   0 < overlapArea wholeBox (mkOcrRect (N := exactZ) 10 10 20 20) /\
   intersects (doubleBox wholeBox)
              (doubleRect (mkOcrRect (N := exactZ) 10 10 20 20)) = true) /\
  (touches (mkSelectionBox (N := exactZ) 0 0 10 10)
           (mkOcrRect (N := exactZ) 10 0 5 5) /\
   intersects (mkSelectionBox (N := exactZ) 0 0 10 10)
              (mkOcrRect (N := exactZ) 10 0 5 5) = false).
Proof.
  destruct drawOcrRectsInSelection_selects_strict_overlap
    as (_ & Hd & Hs & Hz).
  assert (Hbox : smallBox wholeBox)
    by (unfold smallBox, small; simpl; lia).
  assert (Hrect : smallRect (mkOcrRect (N := exactZ) 10 10 20 20))
    by (unfold smallRect, small; simpl; lia).
  assert (Hinside : 0 < overlapArea wholeBox (mkOcrRect (N := exactZ) 10 10 20 20))
    by reflexivity.
  assert (Hedge : edge_contact tenBox edgeRect) by (left; reflexivity).
  assert (Hex : exact_corners tenBox nearRect)
    by (repeat apply conj; vm_compute; reflexivity).
  assert (Harea : 0 < overlapArea (exactBox tenBox) (exactRect nearRect))
    by (vm_compute; reflexivity).
  assert (Htouch : touches (mkSelectionBox (N := exactZ) 0 0 10 10)
                           (mkOcrRect (N := exactZ) 10 0 5 5))
    by (left; reflexivity).
  split; [|split; [|split]].
  - split; [exact Hedge | exact (proj1 (Hd tenBox edgeRect) Hedge)].
  - split; [exact Hex|]. split; [exact Harea|].
    exact (proj2 (proj2 (proj2 (Hd tenBox nearRect) Hex)) Harea).
  - split; [exact Hbox|]. split; [exact Hrect|]. split; [exact Hinside|].
    exact (proj2 (proj2 (proj2 (Hs _ _ Hbox Hrect))) Hinside).
  - split; [exact Htouch|].
    exact (proj1 (proj2 (Hz _ _)) Htouch).
Defined.

(** C1 as it was stated fails on the numbers of JavaScript: a box at
    [x = 2^53] of width 1 and height 10 and a rectangle at [x = 2^53] of
    width and height 5, both at [y = 0], share an area of 5, but the box's
    far corner [2^53 + 1] is rounded to [2^53], the test [selX2 > rectX1]
    fails, and nothing is drawn. *)
Lemma positive_overlap_missed_by_rounding :
  finite_corners farBox farRect /\
  exactBox farBox
    = mkSelectionBox (N := exactZ)
        (9007199254740992 * 2 ^ 1074) 0 (1 * 2 ^ 1074) (10 * 2 ^ 1074) /\
  exactRect farRect
    = mkOcrRect (N := exactZ)
        (9007199254740992 * 2 ^ 1074) 0 (5 * 2 ^ 1074) (5 * 2 ^ 1074) /\
  0 < overlapArea (exactBox farBox) (exactRect farRect) /\
  intersects farBox farRect = false /\
  drawOcrRectsInSelection (Some farBox) farCanvas = (Returned (), farCanvas).
Proof. repeat apply conj; vm_compute; reflexivity. Qed.

(** X19: integer coordinates below [2^52] in size, given to the code as
    doubles, are handled without any rounding: the rectangles
    [drawOcrRectsInSelection] selects and draws are exactly those the test
    selects in exact integer arithmetic. *)
Theorem small_integers_selected_exactly :
  forall (c : @Canvas binary64) (sel : @SelectionBox exactZ)
         (rects : list (@OcrRect exactZ)),
    storedOcrRects c = Some (doubleRect <$> rects) ->
    smallBox sel ->
    Forall smallRect rects ->
    rectsToDraw (doubleBox sel) (doubleRect <$> rects)
      = doubleRect <$> rectsToDraw sel rects /\
    exists els,
      document (final (drawOcrRectsInSelection (Some (doubleBox sel)) c))
        = document c ++ els /\
      geometry <$> els = doubleRect <$> rectsToDraw sel rects.
Proof.
  intros c sel rects Hst Hs Hrects.
  pose proof (rectsToDraw_small sel rects Hs Hrects) as Heq.
  split; [exact Heq|].
  destruct (drawOcrRectsInSelection_draws (doubleBox sel) c) as (els & Hdoc & Hgeo).
  exists els. split; [exact Hdoc|].
  rewrite Hgeo. unfold storedList. rewrite Hst. exact Heq.
Qed.

Lemma small_integers_selected_exactly_witness :
  storedOcrRects deliveredDoubles
    = Some (doubleRect <$> [mkOcrRect (N := exactZ) 10 10 20 20;
                            mkOcrRect (N := exactZ) 200 200 10 10]) /\
  smallBox wholeBox /\
  exists els,
    document (final (drawOcrRectsInSelection (Some (doubleBox wholeBox))
                       deliveredDoubles))
      = document deliveredDoubles ++ els /\
    geometry <$> els
      = doubleRect <$> rectsToDraw wholeBox
                         [mkOcrRect (N := exactZ) 10 10 20 20;
                          mkOcrRect (N := exactZ) 200 200 10 10].
Proof.
  assert (Hbox : smallBox wholeBox)
    by (unfold smallBox, small; simpl; lia).
  assert (Hrects : Forall smallRect [mkOcrRect (N := exactZ) 10 10 20 20;
                                     mkOcrRect (N := exactZ) 200 200 10 10])
    by (repeat constructor; unfold small; simpl; lia).
  split; [reflexivity|]. split; [exact Hbox|].
  exact (proj2 (small_integers_selected_exactly deliveredDoubles wholeBox
                  [mkOcrRect (N := exactZ) 10 10 20 20;
                   mkOcrRect (N := exactZ) 200 200 10 10]
                  eq_refl Hbox Hrects)).
Defined.

End Occlusion.
